(** * Joplin: markdown utilities and the server's item routes

    A shallow embedding of

    - [markdownUtils] (escapeLinkUrl, unescapeLinkUrl, titleFromBody),
    - the API item routes (routes/api/items.ts) and the web content route
      (routes/index/items.ts) of the synchronisation server,
    - the model factory (models/factory.ts).

    A JavaScript string is a sequence of code units; it is modelled by
    [string], each [ascii] standing for one code unit below 256. *)

From Stdlib Require Import Ascii String List Bool Arith ZArith Lia DecimalNat DecimalString.
From stdpp Require Import base option list gmap strings.

Set Default Proof Using "Type".

(* ================================================================== *)
(** * Part I. Definitions *)
(* ================================================================== *)

(** ** JavaScript string primitives *)

(** [s.startsWith(p)] *)
Fixpoint startsWith (p s : string) : bool :=
  match p, s with
  | EmptyString, _ => true
  | String _ _, EmptyString => false
  | String a p', String b s' => Ascii.eqb a b && startsWith p' s'
  end.

(** [s.includes(p)]: [p] occurs somewhere in [s]. *)
Fixpoint includes (p s : string) : bool :=
  startsWith p s ||
  match s with
  | EmptyString => false
  | String _ s' => includes p s'
  end.

(** A regular expression seen from one position: [m s] tells whether the
    expression matches at the start of [s] and, if so, gives the text that
    replaces the match and the number of code units the match consumes. *)
Definition Matcher : Type := string -> option (string * nat).

(** [s.replace(re, ...)] for a regular expression with the [g] flag: the
    string is scanned from the left, every match is replaced and the scan
    resumes after it; an empty match is replaced and the scan advances by
    one code unit.  [skip] counts the code units of the current match that
    are still to be dropped. *)
Fixpoint replace_g (m : Matcher) (skip : nat) (s : string) {struct s} : string :=
  match skip with
  | S k =>
      match s with
      | EmptyString => EmptyString
      | String _ s' => replace_g m k s'
      end
  | O =>
      match m s with
      | Some (r, S k) =>
          match s with
          | EmptyString => r
          | String _ s' => String.append r (replace_g m k s')
          end
      | Some (r, O) =>
          match s with
          | EmptyString => r
          | String c s' => String.append r (String c (replace_g m 0 s'))
          end
      | None =>
          match s with
          | EmptyString => EmptyString
          | String c s' => String c (replace_g m 0 s')
          end
      end
  end.

Definition replaceAll (m : Matcher) (s : string) : string := replace_g m 0 s.

(** The regular expression that matches the literal text [pat], paired with
    the replacement text [rep] (as in [/\(/g, '%28']). *)
Definition literal (pat rep : string) : Matcher :=
  fun s => if startsWith pat s then Some (rep, String.length pat) else None.

(** Longest prefix of [s] whose code units satisfy [p], and what follows. *)
Fixpoint span (p : ascii -> bool) (s : string) : string * string :=
  match s with
  | EmptyString => (EmptyString, EmptyString)
  | String c s' =>
      if p c then let (a, b) := span p s' in (String c a, b)
      else (EmptyString, s)
  end.

(** White space and line terminators of ECMAScript among the code units
    below 256: TAB, LF, VT, FF, CR, SPACE and NBSP. *)
Definition is_js_whitespace (c : ascii) : bool :=
  match nat_of_ascii c with
  | 9 | 10 | 11 | 12 | 13 | 32 | 160 => true
  | _ => false
  end.

(** Line terminators (what [.] refuses) among the code units below 256. *)
Definition is_line_terminator (c : ascii) : bool :=
  match nat_of_ascii c with
  | 10 | 13 => true
  | _ => false
  end.

Definition trimStart (s : string) : string := snd (span is_js_whitespace s).

Fixpoint trimEnd (s : string) : string :=
  match s with
  | EmptyString => EmptyString
  | String c s' =>
      match trimEnd s' with
      | EmptyString => if is_js_whitespace c then EmptyString else String c EmptyString
      | t => String c t
      end
  end.

(** [s.trim()] *)
Definition trim (s : string) : string := trimEnd (trimStart s).

(** [s.split(sep)] for a separator of one code unit: never empty. *)
Fixpoint split (sep : ascii) (s : string) : list string :=
  match s with
  | EmptyString => [EmptyString]
  | String c s' =>
      if Ascii.eqb c sep then EmptyString :: split sep s'
      else match split sep s' with
           | [] => [String c EmptyString]
           | l :: ls => String c l :: ls
           end
  end.

(** ** markdownUtils *)

(** [escapeLinkUrl]: three global replacements, in this order. *)
Definition escapeLinkUrl (url : string) : string :=
  let url := replaceAll (literal "(" "%28") url in
  let url := replaceAll (literal ")" "%29") url in
  let url := replaceAll (literal " " "%20") url in
  url.

(** [unescapeLinkUrl]: the three inverse replacements, in the same order. *)
Definition unescapeLinkUrl (url : string) : string :=
  let url := replaceAll (literal "%28" "(") url in
  let url := replaceAll (literal "%29" ")") url in
  let url := replaceAll (literal "%20" " ") url in
  url.

(** An optional leading [!] ([!?]): the number of code units consumed and
    the rest.  When the rest fails to match, the alternative without [!]
    starts on [!] itself and fails on the [\[] that follows in both
    expressions, so no backtracking is needed. *)
Definition opt_bang (s : string) : nat * string :=
  match s with
  | String "!"%char t => (1, t)
  | _ => (0, s)
  end.

(** [.+?\)] from the start of [s]: the shortest run of one or more code
    units other than line terminators that is followed by [)]; gives the
    run and what follows the [)]. *)
Definition lazy_dots_then_close (s : string) : option (string * string) :=
  match s with
  | EmptyString => None
  | String c0 s' =>
      if is_line_terminator c0 then None
      else
        let (g, r) :=
          span (fun c => negb (is_line_terminator c) && negb (Ascii.eqb c ")")) s' in
        match r with
        | String ")"%char r' => Some (String c0 g, r')
        | _ => None
        end
  end.

(** [/!?\[([^\]]+?)\]\(.+?\)/g] with the replacement ['$1']: the text in
    brackets, which runs to the first [\]] and is not empty. *)
Definition mdLinkRegex : Matcher := fun s =>
  let (n, s1) := opt_bang s in
  match s1 with
  | String "["%char s2 =>
      let (text, s3) := span (fun c => negb (Ascii.eqb c "]")) s2 in
      match text, s3 with
      | String _ _, String "]"%char (String "("%char s4) =>
          match lazy_dots_then_close s4 with
          | Some (url, _) =>
              Some (text, n + 1 + String.length text + 2 + String.length url + 1)
          | None => None
          end
      | _, _ => None
      end
  | _ => None
  end.

(** [/!?\[\]\((.+?)\)/g] with the replacement ['$1']: the target of a link
    whose text is empty. *)
Definition emptyMdLinkRegex : Matcher := fun s =>
  let (n, s1) := opt_bang s in
  match s1 with
  | String "["%char (String "]"%char (String "("%char s2)) =>
      match lazy_dots_then_close s2 with
      | Some (url, _) => Some (url, n + 3 + String.length url + 1)
      | None => None
      end
  | _ => None
  end.

(** The class [[# \n\t*`-]] of [filterRegex]. *)
Definition filter_class (c : ascii) : bool :=
  match nat_of_ascii c with
  | 35 (* # *) | 32 (* space *) | 10 (* \n *) | 9 (* \t *)
  | 42 (* * *) | 96 (* ` *) | 45 (* - *) => true
  | _ => false
  end.

(** [title.replace(/^[# \n\t*`-]*/, '')]: the expression is anchored and
    greedy, so the longest prefix in the class is removed. *)
Definition filterRegex_replace (title : string) : string :=
  snd (span filter_class title).

(** The last line of [titleFromBody], applied to [lines[0].trim()]. *)
Definition title_of_line (title : string) : string :=
  String.substring 0 80
    (replaceAll emptyMdLinkRegex
       (replaceAll mdLinkRegex (filterRegex_replace title))).

(** [titleFromBody] *)
Definition titleFromBody (body : string) : string :=
  if String.eqb body EmptyString then EmptyString   (* if (!body) return '' *)
  else
    let lines := split "010"%char (trim body) in
    let title := trim (hd EmptyString lines) in
    title_of_line title.

(** Replacing one code unit [d] by the text [t] everywhere. *)
Fixpoint subst_char (d : ascii) (t : string) (s : string) : string :=
  match s with
  | EmptyString => EmptyString
  | String a s' =>
      if Ascii.eqb a d then String.append t (subst_char d t s')
      else String a (subst_char d t s')
  end.

(** The text of three code units, as in "%28". *)
Definition three_units (p1 p2 p3 : ascii) : string :=
  String p1 (String p2 (String p3 EmptyString)).

(** ** The server: data model *)

Definition Uuid : Type := string.
Definition Buffer : Type := list Byte.byte.

Record User := mkUser { user_id : Uuid }.

(** An item with its content ([content] is what [loadWithContent] adds to
    the database row). *)
Record Item := mkItem {
  item_id : Uuid;
  item_name : string;
  owner_id : Uuid;
  content_size : nat;
  mime_type : string;
  updated_time : nat;
  created_time : nat;
  jop_share_id : string;
  content : Buffer;
}.

(** The object literal [{}] seen as a partial [Item]. *)
Definition empty_item : Item :=
  {| item_id := EmptyString; item_name := EmptyString; owner_id := EmptyString; content_size := 0;
     mime_type := EmptyString; updated_time := 0; created_time := 0;
     jop_share_id := EmptyString; content := [] |}.

Inductive ChangeType := ChangeCreate | ChangeUpdate | ChangeDelete.

Record Change := mkChange {
  change_id : nat;
  change_item_id : Uuid;
  change_item_name : string;
  change_type : ChangeType;
  change_owner_id : Uuid;
  change_updated_time : nat;
}.

Record Share := mkShare {
  share_id : string;
  share_owner_id : Uuid;
  share_item_id : Uuid;      (* the root item of the share *)
}.

(** The relational store behind the models. *)
Record Db := mkDb {
  items : list Item;
  changes : list Change;
  shares : list Share;
  share_users : list (string * Uuid);   (* share id, user id *)
  counter : nat;     (* source of fresh ids and sequence numbers *)
  clock : nat;       (* the time the models read *)
}.

Inductive AclAction := AclCreate | AclRead | AclUpdate | AclDelete | AclList.

Record ItemSaveOption := mkItemSaveOption { shareId : option string }.

Inductive PaginationOrderDir := ASC | DESC.

Record Pagination := mkPagination {
  limit : nat;
  order_field : string;
  order_dir : PaginationOrderDir;
  page : nat;
}.

Record ChangePagination := mkChangePagination {
  delta_limit : nat;
  delta_cursor : option nat;
}.

Record PaginatedItems := mkPaginatedItems {
  page_items : list Item;
  page_has_more : bool;
}.

Record PaginatedChanges := mkPaginatedChanges {
  delta_items : list Change;
  delta_next_cursor : option nat;
  delta_has_more : bool;
}.

(** ** Errors and effects *)

Inductive Error :=
| ErrorNotFound (message : string)
| ErrorMethodNotAllowed (message : string)
| ErrorForbidden (message : string)
| ErrorOther (message : string).

(** [error instanceof ErrorNotFound] *)
Definition instanceof_ErrorNotFound (e : Error) : bool :=
  match e with ErrorNotFound _ => true | _ => false end.

Inductive Outcome (A : Type) :=
| Ok (a : A)
| Throw (e : Error).
Arguments Ok {A} a.
Arguments Throw {A} e.

(** The calls a handler makes to the models and to the file system, in the
    order it makes them. *)
Inductive Event :=
| EvLoadByName (userId : Uuid) (name : string)
| EvLoadWithContent (id : Uuid)
| EvSerializedContent (id : Uuid)
| EvCheckIfAllowed (user : User) (action : AclAction) (resource : Item)
| EvDeleteForUser (userId : Uuid) (item : Item)
| EvDeleteAll (userId : Uuid)
| EvSaveFromRawContent (user : User) (name : string) (buffer : Buffer) (options : ItemSaveOption)
| EvChildren (userId : Uuid) (parentName : string) (pagination : Pagination)
| EvDelta (userId : Uuid) (pagination : ChangePagination)
| EvFormParse
| EvReadFile (filePath : string)
| EvSafeRemove (filePath : string).

(** What a request may change: the store and the temporary files. *)
Record World := mkWorld {
  db : Db;
  fs : gmap string Buffer;
}.

(** An asynchronous computation: from a world to an outcome, the world it
    leaves and the calls it made. *)
Definition M (A : Type) : Type := World -> Outcome A * World * list Event.

Definition ret {A} (a : A) : M A := fun w => (Ok a, w, []).

Definition throw {A} (e : Error) : M A := fun w => (Throw e, w, []).

Definition bind {A B} (m : M A) (f : A -> M B) : M B := fun w =>
  match m w with
  | (Ok a, w1, t1) => let '(r, w2, t2) := f a w1 in (r, w2, t1 ++ t2)
  | (Throw e, w1, t1) => (Throw e, w1, t1)
  end.

Notation "'let!' x ':=' m 'in' k" := (bind m (fun x => k))
  (at level 10, x name, m at level 100, k at level 200).
Notation "'do!' m 'in' k" := (bind m (fun _ => k))
  (at level 10, m at level 100, k at level 200).

(** [try { m } catch (error) { h error }] *)
Definition try_catch {A} (m : M A) (h : Error -> M A) : M A := fun w =>
  match m w with
  | (Throw e, w1, t1) => let '(r, w2, t2) := h e w1 in (r, w2, t1 ++ t2)
  | done => done
  end.

(** [try { m } finally { fin }]: [fin] runs on every exit of [m]; an error
    of [fin] replaces the outcome of [m]. *)
Definition try_finally {A} (m : M A) (fin : M unit) : M A := fun w =>
  let '(r, w1, t1) := m w in
  match fin w1 with
  | (Ok _, w2, t2) => (r, w2, t1 ++ t2)
  | (Throw e, w2, t2) => (Throw e, w2, t1 ++ t2)
  end.

(** A model call that reads the store. *)
Definition db_read {A} (ev : Event) (f : Db -> Outcome A) : M A := fun w =>
  (f (db w), w, [ev]).

(** A model call that may write the store. *)
Definition db_write {A} (ev : Event) (f : Db -> Outcome A * Db) : M A := fun w =>
  let (r, d) := f (db w) in (r, {| db := d; fs := fs w |}, [ev]).

(** [!x] for an object that may be null. *)
Definition is_null {A} (x : option A) : bool :=
  match x with Some _ => false | None => true end.

(** JavaScript truthiness of an optional string. *)
Definition truthy (s : option string) : bool :=
  match s with
  | Some (String _ _) => true
  | _ => false
  end.

(** ** The model classes, as the routes see them

    The classes themselves (ItemModel, ChangeModel) are not part of the
    sources at hand; the routes are embedded over their methods.  Loading,
    checking and listing read the store; deleting and saving may write it.
    No method receives the request context: a model is built by the factory
    from the connection and the base URL only. *)

Record ItemModel := mkItemModel {
  im_pathToName : string -> string;
  im_loadByName : Uuid -> string -> Db -> Outcome (option Item);
  im_loadWithContent : Uuid -> Db -> Outcome (option Item);
  im_serializedContent : Uuid -> Db -> Outcome Buffer;
  im_checkIfAllowed : User -> AclAction -> Item -> Db -> Outcome unit;
  im_deleteForUser : Uuid -> Item -> Db -> Outcome unit * Db;
  im_deleteAll : Uuid -> Db -> Outcome unit * Db;
  im_saveFromRawContent :
    User -> string -> Buffer -> ItemSaveOption -> Db -> Outcome Item * Db;
  im_children : Uuid -> string -> Pagination -> Db -> Outcome PaginatedItems;
  im_toApiOutput : Item -> Item;
}.

Record ChangeModel := mkChangeModel {
  cm_delta : Uuid -> ChangePagination -> Db -> Outcome PaginatedChanges;
}.

(** factory.ts: [Models] holds the connection and the base URL; [item()]
    and [change()] build a new model from these two on every call.  The
    connection is the [db] of the world, so what remains of [Models] is the
    code of the model classes. *)
Record Models := mkModels {
  item : ItemModel;
  change : ChangeModel;
}.

Definition pathToName (m : ItemModel) : string -> string := im_pathToName m.
Definition toApiOutput (m : ItemModel) : Item -> Item := im_toApiOutput m.

Definition loadByName (m : ItemModel) (userId : Uuid) (name : string) : M (option Item) :=
  db_read (EvLoadByName userId name) (im_loadByName m userId name).

Definition loadWithContent (m : ItemModel) (id : Uuid) : M (option Item) :=
  db_read (EvLoadWithContent id) (im_loadWithContent m id).

Definition serializedContent (m : ItemModel) (id : Uuid) : M Buffer :=
  db_read (EvSerializedContent id) (im_serializedContent m id).

Definition checkIfAllowed (m : ItemModel) (user : User) (action : AclAction)
    (resource : Item) : M unit :=
  db_read (EvCheckIfAllowed user action resource) (im_checkIfAllowed m user action resource).

Definition deleteForUser (m : ItemModel) (userId : Uuid) (it : Item) : M unit :=
  db_write (EvDeleteForUser userId it) (im_deleteForUser m userId it).

Definition deleteAll (m : ItemModel) (userId : Uuid) : M unit :=
  db_write (EvDeleteAll userId) (im_deleteAll m userId).

Definition saveFromRawContent (m : ItemModel) (user : User) (name : string)
    (buffer : Buffer) (options : ItemSaveOption) : M Item :=
  db_write (EvSaveFromRawContent user name buffer options)
    (im_saveFromRawContent m user name buffer options).

Definition children (m : ItemModel) (userId : Uuid) (parentName : string)
    (pagination : Pagination) : M PaginatedItems :=
  db_read (EvChildren userId parentName pagination) (im_children m userId parentName pagination).

Definition delta (m : ChangeModel) (userId : Uuid) (pagination : ChangePagination) :
    M PaginatedChanges :=
  db_read (EvDelta userId pagination) (cm_delta m userId pagination).

(** ** Requests *)

Record SubPath := mkSubPath { path_id : string }.

(** An uploaded file of a parsed multipart body. *)
Record File := mkFile { file_path : string }.

Record FormBody := mkFormBody {
  fields : gmap string string;
  files : gmap string File;
}.

(** The incoming request: the form fields and, for an upload, the bytes
    sent under a field name. *)
Record Request := mkRequest {
  req_fields : gmap string string;
  req_uploads : gmap string Buffer;
}.

Record Response := mkResponse {
  response_body : Buffer;
  response_type : string;
}.

Record AppContext := mkAppContext {
  owner : User;
  models : Models;
  env : string;
  query : gmap string string;
  req : Request;
  response : Response;
}.

(** [fs.readFile(filePath)] *)
Definition readFile (filePath : string) : M Buffer := fun w =>
  (match fs w !! filePath with
   | Some buffer => Ok buffer
   | None => Throw (ErrorOther "ENOENT")
   end, w, [EvReadFile filePath]).

(** Modelled from the spec: [safeRemove] of utils/fileUtils, "a path-safe
    temporary-file remover": the file is gone afterwards and no error is
    raised, whether it existed or not. *)
Definition safeRemove (filePath : string) : M unit := fun w =>
  (Ok tt, {| db := db w; fs := delete filePath (fs w) |}, [EvSafeRemove filePath]).

(** ** The routes *)

Section Routes.
(** Collaborators whose code is not at hand: the multipart parser, which
    may fail and may leave an uploaded file among the temporary files; the
    readers of the pagination parameters; the response builder. *)
Variable formParse :
  Request -> gmap string Buffer -> Outcome FormBody * gmap string Buffer.
Variable requestDeltaPagination : gmap string string -> ChangePagination.
Variable requestPagination : gmap string string -> Pagination.
Variable respondWithItemContent : Response -> Item -> Buffer -> Response.

Definition formParse_ (r : Request) : M FormBody := fun w =>
  let (b, f) := formParse r (fs w) in (b, {| db := db w; fs := f |}, [EvFormParse]).

(** [itemFromPath], routes/api/items.ts. *)
Definition itemFromPath (userId : Uuid) (itemModel : ItemModel) (path : SubPath)
    (mustExists : bool) : M (option Item) :=
  let name := pathToName itemModel (path_id path) in
  let! item := loadByName itemModel userId name in
  if mustExists && is_null item
  then throw (ErrorNotFound (String.append "Not found: " (path_id path)))
  else ret item.

(** The item of a lookup made with [mustExists] left to its default.  The
    lookup has thrown when there is no item, so the second case does not
    arise; JavaScript would raise a TypeError there. *)
Definition the_item (item : option Item) : M Item :=
  match item with
  | Some it => ret it
  | None => throw (ErrorOther "TypeError")
  end.

(** [router.get('api/items/:id')] *)
Definition api_items_get (path : SubPath) (ctx : AppContext) : M Item :=
  let itemModel := item (models ctx) in
  let! found := itemFromPath (user_id (owner ctx)) itemModel path true in
  let! it := the_item found in
  ret (toApiOutput itemModel it).

(** [path.id === 'root' || path.id === 'root:/:'] *)
Definition is_root_path (path : SubPath) : bool :=
  String.eqb (path_id path) "root" || String.eqb (path_id path) "root:/:".

(** The body of the [try] of the delete route. *)
Definition api_items_del_body (path : SubPath) (ctx : AppContext) : M unit :=
  if is_root_path path then
    (* We use this for testing only and for safety reasons it's probably
       best to disable it on production. *)
    if negb (String.eqb (env ctx) "dev")
    then throw (ErrorMethodNotAllowed "Deleting the root is not allowed")
    else deleteAll (item (models ctx)) (user_id (owner ctx))
  else
    let! found := itemFromPath (user_id (owner ctx)) (item (models ctx)) path true in
    let! it := the_item found in
    do! checkIfAllowed (item (models ctx)) (owner ctx) AclDelete it in
    deleteForUser (item (models ctx)) (user_id (owner ctx)) it.

(** [router.del('api/items/:id')] *)
Definition api_items_del (path : SubPath) (ctx : AppContext) : M unit :=
  try_catch (api_items_del_body path ctx)
    (fun error =>
       if instanceof_ErrorNotFound error
       then ret tt           (* That's ok - a no-op *)
       else throw error).

(** [router.get('api/items/:id/content')] *)
Definition api_items_content_get (path : SubPath) (ctx : AppContext) : M Response :=
  let itemModel := item (models ctx) in
  let! found := itemFromPath (user_id (owner ctx)) itemModel path true in
  let! it := the_item found in
  let! serialized := serializedContent itemModel (item_id it) in
  ret (respondWithItemContent (response ctx) it serialized).

(** [{ jop_share_id: saveOptions.shareId }] *)
Definition share_record (shareId : string) : Item :=
  {| item_id := item_id empty_item; item_name := item_name empty_item;
     owner_id := owner_id empty_item; content_size := content_size empty_item;
     mime_type := mime_type empty_item; updated_time := updated_time empty_item;
     created_time := created_time empty_item;
     jop_share_id := shareId; content := content empty_item |}.

(** The body of the [try] of the upload route. *)
Definition api_items_content_put_body (name : string) (filePath : option string)
    (ctx : AppContext) : M Item :=
  let itemModel := item (models ctx) in
  let! buffer :=
    (if truthy filePath then readFile (default EmptyString filePath) else ret ([] : Buffer)) in
  let saveOptions := {| shareId := None |} in
  let! saveOptions :=
    (if truthy (query ctx !! "share_id") then
       let saveOptions := {| shareId := query ctx !! "share_id" |} in
       do! checkIfAllowed itemModel (owner ctx) AclCreate
             (share_record (default EmptyString (shareId saveOptions))) in
       ret saveOptions
     else ret saveOptions) in
  let! it := saveFromRawContent itemModel (owner ctx) name buffer saveOptions in
  ret (toApiOutput itemModel it).

(** [parsedBody?.files?.file ? parsedBody.files.file.path : null] *)
Definition uploaded_file_path (parsedBody : FormBody) : option string :=
  match files parsedBody !! "file" with
  | Some f => Some (file_path f)
  | None => None
  end.

(** [router.put('api/items/:id/content')] *)
Definition api_items_content_put (path : SubPath) (ctx : AppContext) : M Item :=
  let itemModel := item (models ctx) in
  let name := pathToName itemModel (path_id path) in
  let! parsedBody := formParse_ (req ctx) in
  let filePath := uploaded_file_path parsedBody in
  try_finally
    (api_items_content_put_body name filePath ctx)
    (if truthy filePath then safeRemove (default EmptyString filePath) else ret tt).

(** [router.get('api/items/:id/delta')] *)
Definition api_items_delta_get (_path : SubPath) (ctx : AppContext) : M PaginatedChanges :=
  let changeModel := change (models ctx) in
  delta changeModel (user_id (owner ctx)) (requestDeltaPagination (query ctx)).

(** [router.get('api/items/:id/children')] *)
Definition api_items_children_get (path : SubPath) (ctx : AppContext) : M PaginatedItems :=
  let itemModel := item (models ctx) in
  let parentName := pathToName itemModel (path_id path) in
  children itemModel (user_id (owner ctx)) parentName (requestPagination (query ctx)).

(** [router.get('items/:id/content')], routes/index/items.ts. *)
Definition items_content_get (path : SubPath) (ctx : AppContext) : M Response :=
  let itemModel := item (models ctx) in
  let! found := loadWithContent itemModel (path_id path) in
  match found with
  | None => throw (ErrorNotFound EmptyString)
  | Some it => ret (respondWithItemContent (response ctx) it (content it))
  end.
End Routes.

(** ** The models, from the specification

    ItemModel, ChangeModel and the helpers of utils/ are not among the
    sources; the definitions of this part follow the specification of the
    item synchronisation subsystem (sections 3, 4 and 6). *)

Definition same_owner_name (userId : Uuid) (name : string) (it : Item) : bool :=
  String.eqb (owner_id it) userId && String.eqb (item_name it) name.

Definition has_id (id : Uuid) (it : Item) : bool := String.eqb (item_id it) id.

(** Modelled from the spec: ItemModel.pathToName is missing; section 3
    gives the name of an item as its logical path ("root:/notebook/note.md:"),
    so the path is taken as the name. *)
Definition spec_pathToName (path : string) : string := path.

(** Modelled from the spec: ItemModel.loadByName is missing; it is
    [resolve(owner, path)] of section 4.1, "deterministic, case-sensitive,
    tenant-scoped path resolution; never searches across tenants". *)
Definition spec_loadByName (userId : Uuid) (name : string) (d : Db) :
    Outcome (option Item) :=
  Ok (List.find (same_owner_name userId name) (items d)).

(** Modelled from the spec: ItemModel.loadWithContent is missing; the item
    is addressed by its identity alone (section 3: content is "associated
    1:1 with an Item by id"). *)
Definition spec_loadWithContent (id : Uuid) (d : Db) : Outcome (option Item) :=
  Ok (List.find (has_id id) (items d)).

(** Modelled from the spec: ItemModel.serializedContent is missing;
    [serialized_content(item_id) -> bytes] "streams the raw payload". *)
Definition spec_serializedContent (id : Uuid) (d : Db) : Outcome Buffer :=
  match List.find (has_id id) (items d) with
  | Some it => Ok (content it)
  | None => Throw (ErrorNotFound id)
  end.

(** The actor owns the share or was granted access to it. *)
Definition has_share_access (userId : Uuid) (sid : string) (d : Db) : bool :=
  existsb (fun s => String.eqb (share_id s) sid && String.eqb (share_owner_id s) userId)
          (shares d)
  || existsb (fun su => String.eqb (fst su) sid && String.eqb (snd su) userId)
             (share_users d).

(** The item is the root of a share. *)
Definition is_share_root (it : Item) (d : Db) : bool :=
  existsb (fun s => String.eqb (share_item_id s) (item_id it)) (shares d).

(** Modelled from the spec: ItemModel.checkIfAllowed is missing; the
    policy of section 4.2, in priority order: the owner is allowed; an actor
    with a share relationship to the item's share is allowed all but the
    deletion of the share root; anyone else is denied. *)
Definition spec_checkIfAllowed (user : User) (action : AclAction) (resource : Item)
    (d : Db) : Outcome unit :=
  if String.eqb (owner_id resource) (user_id user) then Ok tt
  else if negb (String.eqb (jop_share_id resource) EmptyString)
          && has_share_access (user_id user) (jop_share_id resource) d then
    match action with
    | AclDelete =>
        if is_share_root resource d
        then Throw (ErrorForbidden "cannot delete the root of a share")
        else Ok tt
    | _ => Ok tt
    end
  else Throw (ErrorForbidden "not allowed").

(** Modelled from the spec: ChangeModel's append is missing; section 4.3:
    the record takes the next sequence number and is added at the end of the
    ledger. *)
Definition append_change (it : Item) (type : ChangeType) (d : Db) : Db :=
  {| items := items d;
     changes := changes d ++
       [ {| change_id := counter d; change_item_id := item_id it;
            change_item_name := item_name it; change_type := type;
            change_owner_id := owner_id it; change_updated_time := clock d |} ];
     shares := shares d; share_users := share_users d;
     counter := S (counter d); clock := clock d |}.

(** Removal of the items that satisfy [doomed], with one delete record per
    removed item (section 4.1: "exactly one Change record appended"). *)
Definition remove_items (doomed : Item -> bool) (d : Db) : Db :=
  let gone := List.filter doomed (items d) in
  let kept := List.filter (fun it => negb (doomed it)) (items d) in
  fold_left (fun d' it => append_change it ChangeDelete d') gone
    {| items := kept; changes := changes d; shares := shares d;
       share_users := share_users d; counter := counter d; clock := S (clock d) |}.

(** Modelled from the spec: ItemModel.deleteForUser is missing;
    [delete(owner, item)] of section 4.1: the root of a share one does not
    own is refused; the root of an owned share takes the items of the share
    with it. *)
Definition spec_deleteForUser (userId : Uuid) (it : Item) (d : Db) : Outcome unit * Db :=
  if is_share_root it d && negb (String.eqb (owner_id it) userId)
  then (Throw (ErrorForbidden "cannot delete the root of a share"), d)
  else
    let doomed (x : Item) :=
      has_id (item_id it) x
      || (is_share_root it d && negb (String.eqb (jop_share_id it) EmptyString)
          && String.eqb (jop_share_id x) (jop_share_id it)) in
    (Ok tt, remove_items doomed d).

(** Modelled from the spec: ItemModel.deleteAll is missing; the "full
    wipe" of sections 6 and 8: every item of the tenant is removed. *)
Definition spec_deleteAll (userId : Uuid) (d : Db) : Outcome unit * Db :=
  (Ok tt, remove_items (fun x => String.eqb (owner_id x) userId) d).

Definition new_uuid (n : nat) : Uuid :=
  String.append "item-" (NilEmpty.string_of_uint (Nat.to_uint n)).

Definition replace_item (it : Item) (l : list Item) : list Item :=
  map (fun x => if has_id (item_id it) x then it else x) l.

(** Modelled from the spec: ItemModel.saveFromRawContent is missing;
    [create_or_replace(owner, path, content_bytes, options)] of section 4.1:
    an item of the tenant with that path is replaced, content and metadata
    overwritten and [updated_time] bumped; otherwise the item is created;
    one Change record is appended either way.  The spec gives no rule for
    [mime_type]: it is empty at creation and kept on replacement. *)
Definition spec_saveFromRawContent (user : User) (name : string) (buffer : Buffer)
    (options : ItemSaveOption) (d : Db) : Outcome Item * Db :=
  let now := S (clock d) in
  match List.find (same_owner_name (user_id user) name) (items d) with
  | Some old =>
      let it :=
        {| item_id := item_id old; item_name := name; owner_id := owner_id old;
           content_size := length buffer; mime_type := mime_type old;
           updated_time := now; created_time := created_time old;
           jop_share_id := default (jop_share_id old) (shareId options);
           content := buffer |} in
      (Ok it,
       append_change it ChangeUpdate
         {| items := replace_item it (items d); changes := changes d;
            shares := shares d; share_users := share_users d;
            counter := counter d; clock := now |})
  | None =>
      let it :=
        {| item_id := new_uuid (counter d); item_name := name;
           owner_id := user_id user;
           content_size := length buffer; mime_type := EmptyString;
           updated_time := now; created_time := now;
           jop_share_id := default EmptyString (shareId options);
           content := buffer |} in
      (Ok it,
       append_change it ChangeCreate
         {| items := items d ++ [it]; changes := changes d;
            shares := shares d; share_users := share_users d;
            counter := S (counter d); clock := now |})
  end.

(** Order of two items on a listing field, then on the identifier
    (section 4.4: "secondary-sort by id ascending"). *)
Definition item_compare (field : string) (dir : PaginationOrderDir) (a b : Item) :
    comparison :=
  let primary :=
    if String.eqb field "name" then String.compare (item_name a) (item_name b)
    else if String.eqb field "content_size" then Nat.compare (content_size a) (content_size b)
    else if String.eqb field "mime_type" then String.compare (mime_type a) (mime_type b)
    else if String.eqb field "updated_time" then Nat.compare (updated_time a) (updated_time b)
    else Eq in
  match (match dir with ASC => primary | DESC => CompOpp primary end) with
  | Eq => String.compare (item_id a) (item_id b)
  | c => c
  end.

Fixpoint insert_sorted (cmp : Item -> Item -> comparison) (x : Item) (l : list Item) :
    list Item :=
  match l with
  | [] => [x]
  | y :: l' =>
      match cmp x y with
      | Gt => y :: insert_sorted cmp x l'
      | _ => x :: l
      end
  end.

Definition sort_items (cmp : Item -> Item -> comparison) (l : list Item) : list Item :=
  fold_right (insert_sorted cmp) [] l.

(** The spec bounds the page size by "a maximum the engine enforces"
    without giving its value. *)
Definition max_page_size : nat := 100.

(** Modelled from the spec: ItemModel.children is missing;
    [children(owner, parent_path, pagination)] of section 4.1: the items of
    the tenant under the parent path "by prefix match", in the requested
    order, one page of them. *)
Definition spec_children (userId : Uuid) (parentName : string) (p : Pagination)
    (d : Db) : Outcome PaginatedItems :=
  let mine :=
    List.filter
      (fun it => String.eqb (owner_id it) userId && startsWith parentName (item_name it))
      (items d) in
  let sorted := sort_items (item_compare (order_field p) (order_dir p)) mine in
  let size := Nat.min (limit p) max_page_size in
  let skipped := (page p - 1) * size in
  Ok {| page_items := firstn size (skipn skipped sorted);
        page_has_more := skipped + size <? length sorted |}.

(** Modelled from the spec: ItemModel.toApiOutput is missing; section 6:
    "item metadata (no content)". *)
Definition spec_toApiOutput (it : Item) : Item :=
  {| item_id := item_id it; item_name := item_name it; owner_id := owner_id it;
     content_size := content_size it; mime_type := mime_type it;
     updated_time := updated_time it; created_time := created_time it;
     jop_share_id := jop_share_id it; content := [] |}.

(** Modelled from the spec: ChangeModel.delta is missing; section 4.3:
    the changes of the tenant "strictly after cursor in sequence order,
    oldest first, bounded by a page-size limit". *)
Definition spec_delta (userId : Uuid) (p : ChangePagination) (d : Db) :
    Outcome PaginatedChanges :=
  let after (c : Change) :=
    String.eqb (change_owner_id c) userId
    && match delta_cursor p with
       | Some k => k <? change_id c
       | None => true
       end in
  let pending := List.filter after (changes d) in
  let size := Nat.min (delta_limit p) max_page_size in
  let now := firstn size pending in
  Ok {| delta_items := now;
        delta_next_cursor :=
          match last now with
          | Some c => Some (change_id c)
          | None => delta_cursor p
          end;
        delta_has_more := size <? length pending |}.

Definition spec_ItemModel : ItemModel :=
  {| im_pathToName := spec_pathToName;
     im_loadByName := spec_loadByName;
     im_loadWithContent := spec_loadWithContent;
     im_serializedContent := spec_serializedContent;
     im_checkIfAllowed := spec_checkIfAllowed;
     im_deleteForUser := spec_deleteForUser;
     im_deleteAll := spec_deleteAll;
     im_saveFromRawContent := spec_saveFromRawContent;
     im_children := spec_children;
     im_toApiOutput := spec_toApiOutput |}.

Definition spec_ChangeModel : ChangeModel := {| cm_delta := spec_delta |}.

Definition spec_Models : Models :=
  {| item := spec_ItemModel; change := spec_ChangeModel |}.

(** Modelled from the spec: formParse of utils/requestUtils is missing;
    section 5: "content uploads stream from request body to a temporary
    location".  The bytes sent under a field name are written to a temporary
    file named after the field. *)
Definition spec_formParse (r : Request) (files_now : gmap string Buffer) :
    Outcome FormBody * gmap string Buffer :=
  let tmp (field : string) : string := String.append "/tmp/upload_" field in
  (Ok {| fields := req_fields r;
         files := list_to_map
                    (map (fun fb => (fst fb, {| file_path := tmp (fst fb) |}))
                         (map_to_list (req_uploads r))) |},
   list_to_map (map (fun fb => (tmp (fst fb), snd fb)) (map_to_list (req_uploads r)))
   ∪ files_now).

(** Modelled from the spec: respondWithItemContent of utils/routeUtils is
    missing; section 6: "raw bytes with content-type". *)
Definition spec_respondWithItemContent (r : Response) (it : Item) (body : Buffer) :
    Response :=
  {| response_body := body;
     response_type :=
       if String.eqb (mime_type it) EmptyString then "application/octet-stream" else mime_type it |}.

(** ** Reading a trace *)

Definition is_check (e : Event) : bool :=
  match e with EvCheckIfAllowed _ _ _ => true | _ => false end.

(** The calls that change the items of the store. *)
Definition is_mutation (e : Event) : bool :=
  match e with
  | EvDeleteForUser _ _ | EvDeleteAll _ | EvSaveFromRawContent _ _ _ _ => true
  | _ => false
  end.

(** In the trace [t], every call that changes the store comes after some
    call of [checkIfAllowed]. *)
Definition every_mutation_checked (t : list Event) : Prop :=
  forall t1 e t2,
    t = t1 ++ e :: t2 -> is_mutation e = true ->
    exists c, In c t1 /\ is_check c = true.

(** Outcome, final world and trace of a computation. *)
Definition outcome_of {A} (r : Outcome A * World * list Event) : Outcome A := fst (fst r).
Definition world_of {A} (r : Outcome A * World * list Event) : World := snd (fst r).
Definition trace_of {A} (r : Outcome A * World * list Event) : list Event := snd r.

(** ** Well-formed stores (section 3: "name is unique per owner_id; id
    never collides across tenants") *)

Definition owner_and_name (it : Item) : Uuid * string := (owner_id it, item_name it).

Record wf_db (d : Db) : Prop := mk_wf_db {
  wf_ids : List.NoDup (map item_id (items d));
  wf_names : List.NoDup (map owner_and_name (items d));
  wf_fresh : forall it k, In it (items d) -> counter d <= k -> item_id it <> new_uuid k;
}.

(** ** A small scenario *)

Definition alice : User := {| user_id := "alice" |}.
Definition bob : User := {| user_id := "bob" |}.

Definition empty_db : Db :=
  {| items := []; changes := []; shares := []; share_users := [];
     counter := 0; clock := 0 |}.

Definition empty_world : World := {| db := empty_db; fs := ∅ |}.

Definition hello : Buffer := String.list_byte_of_string "hello".

Definition no_request : Request := {| req_fields := ∅; req_uploads := ∅ |}.

(** A multipart request that uploads [body] under the field "file". *)
Definition upload (body : Buffer) : Request :=
  {| req_fields := ∅; req_uploads := {[ "file" := body ]} |}.

Definition spec_ctx (user : User) (environment : string) (q : gmap string string)
    (r : Request) : AppContext :=
  {| owner := user; models := spec_Models; env := environment; query := q;
     req := r; response := {| response_body := []; response_type := EmptyString |} |}.

Definition note_path : SubPath := {| path_id := "root:/note.md:" |}.

(** The world after alice has uploaded "hello" at root:/note.md: through
    the upload route. *)
Definition alice_world : World :=
  world_of (api_items_content_put spec_formParse note_path
              (spec_ctx alice "prod" ∅ (upload hello)) empty_world).

Definition hello_bob : Buffer := String.list_byte_of_string "hello bob".

(** The world after bob, too, has uploaded a note at root:/note.md:. *)
Definition two_tenant_world : World :=
  world_of (api_items_content_put spec_formParse note_path
              (spec_ctx bob "prod" ∅ (upload hello_bob)) alice_world).

(** ** Compaction of the change log, and the stores the models produce *)

(** The record is older than the retention horizon. *)
Definition is_old (horizon : nat) (c : Change) : bool :=
  change_updated_time c <? horizon.

(** Modelled from the spec: the compaction of ChangeModel is missing;
    section 4.3: it "may coalesce consecutive (create, update*, delete)
    sequences for the same item older than a retention horizon into a single
    terminal record", the sequence numbering staying valid and a resuming
    client observing "the same net effect (item no longer exists, or item's
    latest state)".  Of the records about one item that are older than the
    horizon the last one stays, under its own sequence number; a record that
    is not older than the horizon stays as it is. *)
Fixpoint compact (horizon : nat) (log : list Change) : list Change :=
  match log with
  | [] => []
  | c :: rest =>
      if is_old horizon c
         && existsb (fun c' => is_old horizon c'
                               && String.eqb (change_item_id c') (change_item_id c)) rest
      then compact horizon rest
      else c :: compact horizon rest
  end.

(** The Change records about the item [id] that survive a compaction with
    the given retention horizon. *)
Definition surviving_changes (horizon : nat) (id : Uuid) (d : Db) : list Change :=
  List.filter (fun c => String.eqb (change_item_id c) id) (compact horizon (changes d)).


(** A multipart request that uploads [body] under the field "file" and
    [other] under the field "attachment". *)
Definition upload_two (body other : Buffer) : Request :=
  {| req_fields := ∅; req_uploads := {[ "file" := body; "attachment" := other ]} |}.

(** ** markdownUtils: the other escapes *)

(** [/(\[|\])/g] with the replacement ['\\$1']: a bracket, replaced by a
    backslash and the bracket. *)
Definition bracketRegex : Matcher := fun s =>
  match s with
  | String c _ =>
      if Ascii.eqb c "[" || Ascii.eqb c "]"
      then Some (String "092" (String c EmptyString), 1)
      else None
  | EmptyString => None
  end.

(** [escapeTitleText] *)
Definition escapeTitleText (text : string) : string := replaceAll bracketRegex text.

(** [escapeTableCell]: four global replacements, in this order. *)
Definition escapeTableCell (text : string) : string :=
  (* Disable HTML code *)
  let text := replaceAll (literal "<" "&lt;") text in
  let text := replaceAll (literal ">" "&gt;") text in
  (* Table cells can't contain new lines so replace with <br/> *)
  let text := replaceAll (literal (String "010" EmptyString) "<br/>") text in
  (* "|" is a reserved characters that should be escaped *)
  let text := replaceAll (literal "|" (String "092" "|")) text in
  text.

(** The code unit [c] occurs in [s]. *)
Fixpoint has_char (c : ascii) (s : string) : bool :=
  match s with
  | EmptyString => false
  | String a s' => Ascii.eqb a c || has_char c s'
  end.

(** Every occurrence of a code unit that satisfies [p] in [s] comes right
    after a backslash; [prev] is the code unit before [s]. *)
Fixpoint all_escaped (p : ascii -> bool) (prev : option ascii) (s : string) : bool :=
  match s with
  | EmptyString => true
  | String a s' =>
      (negb (p a) || match prev with Some b => Ascii.eqb b "092" | None => false end)
      && all_escaped p (Some a) s'
  end.

Definition is_bracket (c : ascii) : bool := Ascii.eqb c "[" || Ascii.eqb c "]".

Definition is_pipe_char (c : ascii) : bool := Ascii.eqb c "|".

(** ** markdownUtils: tables *)

(** [(s.match(/c/g) || []).length] for a code unit [c]. *)
Fixpoint count_char (c : ascii) (s : string) : nat :=
  match s with
  | EmptyString => 0
  | String a s' => (if Ascii.eqb a c then 1 else 0) + count_char c s'
  end.

(** [s[s.length - 1]]: undefined on the empty string. *)
Fixpoint last_char (s : string) : option ascii :=
  match s with
  | EmptyString => None
  | String a EmptyString => Some a
  | String _ s' => last_char s'
  end.

(** [s[0]] *)
Definition first_char (s : string) : option ascii := String.get 0 s.

Definition is_pipe (c : option ascii) : bool :=
  match c with Some a => Ascii.eqb a "|" | None => false end.

(** [countTableColumns] *)
Definition countTableColumns (line : string) : Z :=
  if String.eqb line EmptyString then 0%Z     (* if (!line) return 0 *)
  else
    let trimmed := trim line in
    let pipes := Z.of_nat (count_char "|" line) in
    let pipes := if is_pipe (first_char trimmed) then (pipes - 1)%Z else pipes in
    let pipes := if is_pipe (last_char trimmed) then (pipes - 1)%Z else pipes in
    (pipes + 1)%Z.

(** The code units that the class of [matchingTableDivider] does not
    match: white space, [-], [:] and [|]. *)
Definition divider_class (c : ascii) : bool :=
  is_js_whitespace c || Ascii.eqb c "-" || Ascii.eqb c ":" || Ascii.eqb c "|".

(** Every code unit of [s] satisfies [p]. *)
Fixpoint all_chars (p : ascii -> bool) (s : string) : bool :=
  match s with
  | EmptyString => true
  | String a s' => p a && all_chars p s'
  end.

(** [matchingTableDivider]; the match for invalid characters is not null
    when some code unit of the divider is outside the class. *)
Definition matchingTableDivider (header divider : string) : bool :=
  if String.eqb header EmptyString || String.eqb divider EmptyString then false
  else
    let invalidChars := negb (all_chars divider_class divider) in
    if invalidChars then false
    else
      let columns := countTableColumns header in
      let cols := countTableColumns divider in
      (0 <? cols)%Z && (columns <=? cols)%Z.

(** ** markdownUtils: list items *)

Definition is_bullet (c : ascii) : bool :=
  Ascii.eqb c "*" || Ascii.eqb c "+" || Ascii.eqb c "-".

Definition is_digit (c : ascii) : bool :=
  (48 <=? nat_of_ascii c) && (nat_of_ascii c <=? 57).

(** What a match of [listRegex] or [emptyListRegex] captures: the leading
    white space, the list token, the digits of an ordered token (undefined
    for a bullet) and the white space that follows the token. *)
Record ListMatch := mkListMatch {
  lm_indent : string;
  lm_token : string;
  lm_number : option string;
  lm_space : string;
}.

(** The alternatives of the second group of [listRegex] at the start of
    [s]; each gives the token, the digits and the rest.  First: a bullet, a
    space and a checkbox followed by white space. *)
Definition token_checkbox (s : string) : option (string * option string * string) :=
  match s with
  | String b (String sp (String lb (String x (String rb (String w rest))))) =>
      if is_bullet b && Ascii.eqb sp " " && Ascii.eqb lb "["
         && (Ascii.eqb x "x" || Ascii.eqb x " ") && Ascii.eqb rb "]"
         && is_js_whitespace w
      then Some (String b (String sp (String lb (String x (String rb (String w EmptyString))))),
                 None, rest)
      else None
  | _ => None
  end.

(** Second: a bullet followed by white space. *)
Definition token_bullet (s : string) : option (string * option string * string) :=
  match s with
  | String b (String w rest) =>
      if is_bullet b && is_js_whitespace w
      then Some (String b (String w EmptyString), None, rest)
      else None
  | _ => None
  end.

(** Third: digits, a dot or closing parenthesis and white space.  The
    greedy digits group takes all the digits: giving one back would leave a
    digit where the dot or parenthesis is expected. *)
Definition token_ordered (s : string) : option (string * option string * string) :=
  let (digits, s1) := span is_digit s in
  match digits, s1 with
  | String _ _, String p (String w rest) =>
      if (Ascii.eqb p "." || Ascii.eqb p ")") && is_js_whitespace w
      then Some (String.append digits (String p (String w EmptyString)), Some digits, rest)
      else None
  | _, _ => None
  end.

(** The first of the alternatives that matches. *)
Definition first_match {A} (a b c : option A) : option A :=
  match a with
  | Some m => Some m
  | None => match b with Some m => Some m | None => c end
  end.

Definition list_token (s : string) : option (string * option string * string) :=
  first_match (token_checkbox s) (token_bullet s) (token_ordered s).

(** [line.match(listRegex)]: leading white space, the token, white space.
    The greedy leading group takes all the leading white space, as no token
    starts with white space. *)
Definition listRegex (line : string) : option ListMatch :=
  let (indent, s) := span is_js_whitespace line in
  match list_token s with
  | Some (token, number, rest) =>
      Some {| lm_indent := indent; lm_token := token; lm_number := number;
              lm_space := fst (span is_js_whitespace rest) |}
  | None => None
  end.

(** White space to the end of the input, at least one code unit (the last
    group of [emptyListRegex] and its end anchor). *)
Definition space_to_end (s : string) : bool :=
  match s with
  | EmptyString => false
  | String _ _ => all_chars is_js_whitespace s
  end.

(** The alternatives of [emptyListRegex] after the leading white space: a
    token without its trailing white space, then white space to the end. *)
Definition empty_checkbox (indent s : string) : option ListMatch :=
  match s with
  | String b (String sp (String lb (String x (String rb rest)))) =>
      if is_bullet b && Ascii.eqb sp " " && Ascii.eqb lb "["
         && (Ascii.eqb x "x" || Ascii.eqb x " ") && Ascii.eqb rb "]"
         && space_to_end rest
      then Some {| lm_indent := indent;
                   lm_token := String b (String sp (String lb (String x (String rb EmptyString))));
                   lm_number := None; lm_space := rest |}
      else None
  | _ => None
  end.

Definition empty_bullet (indent s : string) : option ListMatch :=
  match s with
  | String b rest =>
      if is_bullet b && space_to_end rest
      then Some {| lm_indent := indent; lm_token := String b EmptyString;
                   lm_number := None; lm_space := rest |}
      else None
  | _ => None
  end.

Definition empty_ordered (indent s : string) : option ListMatch :=
  let (digits, s1) := span is_digit s in
  match digits, s1 with
  | String _ _, String p rest =>
      if (Ascii.eqb p "." || Ascii.eqb p ")") && space_to_end rest
      then Some {| lm_indent := indent;
                   lm_token := String.append digits (String p EmptyString);
                   lm_number := Some digits; lm_space := rest |}
      else None
  | _, _ => None
  end.

(** [line.match(emptyListRegex)]: an alternative counts when what follows
    it is white space to the end; the next one is tried otherwise. *)
Definition emptyListRegex (line : string) : option ListMatch :=
  let (indent, s) := span is_js_whitespace line in
  first_match (empty_checkbox indent s) (empty_bullet indent s) (empty_ordered indent s).

(** [extractListToken] *)
Definition extractListToken (line : string) : string :=
  match listRegex line with
  | Some m => lm_token m
  | None => EmptyString
  end.

(** [isListItem] *)
Definition isListItem (line : string) : bool :=
  match listRegex line with Some _ => true | None => false end.

(** [isEmptyListItem] *)
Definition isEmptyListItem (line : string) : bool :=
  match emptyListRegex line with Some _ => true | None => false end.

(** ** The desktop menu bar (gui/MenuBar.tsx) *)

#[local] Set Warnings "-register-all".

(** A menu item contributed by a plugin: a command name, a label and, for a
    menu, its items.  An array is truthy even when empty, so [submenu] is
    tested by its presence. *)
Inductive MenuItem :=
| mkMenuItem (commandName : option string) (label : option string)
             (submenu : option (list MenuItem)).

(** The body of the loop of [pluginMenuItemsCommandNames]: what one item
    adds to the output. *)
Fixpoint pluginMenuItemsCommandNames_item (menuItem : MenuItem) : list string :=
  match menuItem with
  | mkMenuItem _ _ (Some submenu) => flat_map pluginMenuItemsCommandNames_item submenu
  | mkMenuItem commandName _ None =>
      if truthy commandName then [default EmptyString commandName] else []
  end.

(** [pluginMenuItemsCommandNames] *)
Definition pluginMenuItemsCommandNames (menuItems : list MenuItem) : list string :=
  flat_map pluginMenuItemsCommandNames_item menuItems.

(** A menu template as [createPluginMenuTree] builds it: what
    [menuUtils.commandToMenuItem] returns for a command, or a labelled
    submenu. *)
Inductive MenuTemplate (A : Type) :=
| TemplateItem (a : A)
| TemplateSubmenu (label : option string) (submenu : list (MenuTemplate A)).
Arguments TemplateItem {A} a.
Arguments TemplateSubmenu {A} label submenu.

(** A loop that pushes [f x] for every [x], left to right, and stops at the
    first error. *)
Fixpoint for_each {A B} (f : A -> Outcome B) (l : list A) : Outcome (list B) :=
  match l with
  | [] => Ok []
  | x :: l' =>
      match f x with
      | Throw e => Throw e
      | Ok y =>
          match for_each f l' with
          | Ok ys => Ok (y :: ys)
          | Throw e => Throw e
          end
      end
  end.

Section PluginMenuTree.
Context {A : Type}.
(** [menuUtils.commandToMenuItem(commandName, onMenuItemClick)], which is
    not at hand and may throw. *)
Variable commandToMenuItem : option string -> Outcome A.

(** The body of the loop of [createPluginMenuTree]. *)
Fixpoint createPluginMenuTree_item (menuItem : MenuItem) : Outcome (MenuTemplate A) :=
  match menuItem with
  | mkMenuItem _ label (Some submenu) =>
      match for_each createPluginMenuTree_item submenu with
      | Ok entries => Ok (TemplateSubmenu label entries)
      | Throw e => Throw e
      end
  | mkMenuItem commandName _ None =>
      match commandToMenuItem commandName with
      | Ok entry => Ok (TemplateItem entry)
      | Throw e => Throw e
      end
  end.

(** [createPluginMenuTree] *)
Definition createPluginMenuTree (label : option string) (menuItems : list MenuItem) :
    Outcome (MenuTemplate A) :=
  match for_each createPluginMenuTree_item menuItems with
  | Ok entries => Ok (TemplateSubmenu label entries)
  | Throw e => Throw e
  end.
End PluginMenuTree.

(** The entries of a template that are not submenus, left to right. *)
Fixpoint template_items {A} (t : MenuTemplate A) : list A :=
  match t with
  | TemplateItem a => [a]
  | TemplateSubmenu _ submenu => flat_map template_items submenu
  end.

(** An entry of an Electron menu template, as far as [cleanUpSeparators]
    looks at it: its type, and its [visible] property when it has one
    (with its truthiness). *)
Record TemplateEntry := mkTemplateEntry {
  entry_label : string;
  entry_type : option string;
  entry_visible : option bool;
}.

(** ['visible' in item && item.type === 'separator' && !item.visible] *)
Definition hidden_separator (entry : TemplateEntry) : bool :=
  match entry_visible entry with
  | Some visible =>
      match entry_type entry with
      | Some type => String.eqb type "separator" && negb visible
      | None => false
      end
  | None => false
  end.

(** [cleanUpSeparators] *)
Fixpoint cleanUpSeparators (items : list TemplateEntry) : list TemplateEntry :=
  match items with
  | [] => []
  | entry :: rest =>
      if hidden_separator entry then cleanUpSeparators rest
      else entry :: cleanUpSeparators rest
  end.

(** ** The web route for the item list form (routes/index/items.ts) *)

Section WebRoutes.
Variable formParse :
  Request -> gmap string Buffer -> Outcome FormBody * gmap string Buffer.
(** [redirect] of utils/routeUtils and the URL that
    [ctx.models.item().itemUrl()] gives, neither at hand. *)
Variable redirect : AppContext -> string -> Response.
Variable itemUrl : string.

(** [router.post('items')] *)
Definition items_post (_path : SubPath) (ctx : AppContext) : M Response :=
  let! body := formParse_ formParse (req ctx) in
  let fields := fields body in
  do! (if truthy (fields !! "delete_all_button")
       then
         let itemModel := item (models ctx) in
         deleteAll itemModel (user_id (owner ctx))
       else throw (ErrorOther "Invalid form button")) in
  ret (redirect ctx itemUrl).
End WebRoutes.

(** ** markdownUtils: createMarkdownTable *)

(** [items.join(sep)] *)
Fixpoint join (sep : string) (items : list string) : string :=
  match items with
  | [] => EmptyString
  | [x] => x
  | x :: rest => String.append x (String.append sep (join sep rest))
  end.

(** A header of a table: the key of its column in a row, its label and an
    optional filter for the values of the column. *)
Record MarkdownTableHeader := mkMarkdownTableHeader {
  header_name : string;
  header_label : string;
  header_filter : option (option string -> option string);
}.

Section CreateMarkdownTable.
(** [stringPadding(text, 3, ' ', stringPadding.RIGHT)] of the
    string-padding package. *)
Variable stringPadding : string -> string.

(** A cell: [escapeTableCell(h.filter ? h.filter(row[h.name]) : row[h.name])],
    padded.  An undefined value has no [replace]: a TypeError. *)
Definition table_cell (row : gmap string string) (h : MarkdownTableHeader) :
    Outcome string :=
  let value :=
    match header_filter h with
    | Some filter => filter (row !! header_name h)
    | None => row !! header_name h
    end in
  match value with
  | Some text => Ok (stringPadding (escapeTableCell text))
  | None => Throw (ErrorOther "TypeError")
  end.

(** [createMarkdownTable] *)
Definition createMarkdownTable (headers : list MarkdownTableHeader)
    (rows : list (gmap string string)) : Outcome string :=
  let headersMd := map (fun h => stringPadding (header_label h)) headers in
  let lineMd := map (fun _ => "---") headers in
  match for_each (fun row =>
                    match for_each (table_cell row) headers with
                    | Ok rowMd => Ok (join " | " rowMd)
                    | Throw e => Throw e
                    end) rows with
  | Ok rowsMd =>
      Ok (join (String "010" EmptyString)
            (join " | " headersMd :: join " | " lineMd :: rowsMd))
  | Throw e => Throw e
  end.
End CreateMarkdownTable.

(** ** markdownUtils: extractFileUrls *)

(** A token of the markdown parser, as far as [searchUrls] reads it: its
    type, its attributes (arrays of strings, or null) and its children. *)
Inductive Token :=
| mkToken (type : string) (attrs : option (list (list string)))
          (children : option (list Token)).

(** The inner loop of [searchUrls]: the values of the [src] and [href]
    attributes that have one. *)
Definition attr_urls (attrs : list (list string)) : list string :=
  flat_map
    (fun a =>
       match a with
       | name :: value :: _ =>
           if (String.eqb name "src" || String.eqb name "href")
              && truthy (Some value)
           then [value] else []
       | _ => []
       end)
    attrs.

(** The test on the type of a token. *)
Definition url_token (onlyImage : bool) (type : string) : bool :=
  (onlyImage && String.eqb type "image")
  || (negb onlyImage && (String.eqb type "image" || String.eqb type "link_open")).

(** Concatenation of the outputs of a loop that may throw. *)
Definition concat_outcomes (l : Outcome (list (list string))) : Outcome (list string) :=
  match l with
  | Ok parts => Ok (concat parts)
  | Throw e => Throw e
  end.

(** The body of the loop of [searchUrls] for one token: what it pushes.
    Reading [token.attrs.length] on a token without attributes is a
    TypeError. *)
Fixpoint searchUrls_token (onlyImage : bool) (token : Token) : Outcome (list string) :=
  match token with
  | mkToken type attrs children =>
      let own :=
        if url_token onlyImage type then
          match attrs with
          | Some attrs => Ok (attr_urls attrs)
          | None => Throw (ErrorOther "TypeError")
          end
        else Ok [] in
      match own with
      | Throw e => Throw e
      | Ok urls =>
          match children with
          | Some (child :: rest) =>
              match concat_outcomes
                      (for_each (searchUrls_token onlyImage) (child :: rest)) with
              | Ok below => Ok (urls ++ below)
              | Throw e => Throw e
              end
          | _ => Ok urls
          end
      end
  end.

(** [searchUrls] *)
Definition searchUrls (onlyImage : bool) (tokens : list Token) : Outcome (list string) :=
  concat_outcomes (for_each (searchUrls_token onlyImage) tokens).

Section ExtractFileUrls.
(** [markdownIt.parse(md, env)] of the markdown-it package. *)
Variable parse : string -> list Token.

(** [extractFileUrls] *)
Definition extractFileUrls (md : string) (onlyImage : bool) : Outcome (list string) :=
  searchUrls onlyImage (parse md).

(** [extractImageUrls] *)
Definition extractImageUrls (md : string) : Outcome (list string) :=
  extractFileUrls md true.
End ExtractFileUrls.
(* ================================================================== *)
(** * Part II. Properties *)
(* ================================================================== *)

Example escapeLinkUrl_ex :
  escapeLinkUrl "a (b).md" = "a%20%28b%29.md".
Proof. reflexivity. Qed.

Example unescapeLinkUrl_ex :
  unescapeLinkUrl "a%20%28b%29.md" = "a (b).md".
Proof. reflexivity. Qed.

Example titleFromBody_ex1 :
  titleFromBody ("  " ++ String "010" "# My [link](http://x.y) title" ++ String "010" "rest")
  = "My link title".
Proof. reflexivity. Qed.

Example titleFromBody_ex2 :
  titleFromBody "## ![](:/abc) x" = ":/abc x".
Proof. reflexivity. Qed.

(** ** Global replacement of a literal *)

Lemma append_String (c : ascii) (a b : string) :
  String.append (String c a) b = String c (String.append a b).
Proof. reflexivity. Qed.

Lemma append_Empty (b : string) : String.append EmptyString b = b.
Proof. reflexivity. Qed.

Lemma prefix_app (p t : string) : startsWith p (String.append p t) = true.
Proof.
  induction p as [|c p IH]; [reflexivity|].
  rewrite append_String. cbn [startsWith].
  now rewrite Ascii.eqb_refl.
Qed.

Lemma replace_g_skip (m : Matcher) (q t : string) :
  replace_g m (String.length q) (String.append q t) = replace_g m 0 t.
Proof.
  induction q as [|c q IH]; [reflexivity|].
  rewrite append_String. exact IH.
Qed.

(** A match of the literal is replaced and the scan resumes after it. *)
Lemma replaceAll_literal_hit (c : ascii) (pat rep t : string) :
  replaceAll (literal (String c pat) rep) (String.append (String c pat) t)
  = String.append rep (replaceAll (literal (String c pat) rep) t).
Proof.
  unfold replaceAll. rewrite append_String.
  cbn [replace_g]. unfold literal at 1.
  rewrite <- append_String, prefix_app. cbn [String.length].
  now rewrite replace_g_skip.
Qed.

(** Where the literal does not match, one code unit is copied. *)
Lemma replaceAll_literal_miss (pat rep : string) (a : ascii) (s : string) :
  startsWith pat (String a s) = false ->
  replaceAll (literal pat rep) (String a s)
  = String a (replaceAll (literal pat rep) s).
Proof.
  intros H. unfold replaceAll. cbn [replace_g]. unfold literal at 1.
  now rewrite H.
Qed.

Lemma replaceAll_char (d : ascii) (t s : string) :
  replaceAll (literal (String d EmptyString) t) s = subst_char d t s.
Proof.
  induction s as [|a s IH]; [reflexivity|].
  cbn [subst_char]. destruct (Ascii.eqb a d) eqn:E.
  - apply Ascii.eqb_eq in E. subst a.
    change (String d s) with (String.append (String d EmptyString) s).
    now rewrite replaceAll_literal_hit, IH.
  - rewrite replaceAll_literal_miss, IH; [reflexivity|].
    simpl. rewrite Ascii.eqb_sym, E. reflexivity.
Qed.

Lemma append_assoc (a b c : string) :
  String.append (String.append a b) c = String.append a (String.append b c).
Proof.
  induction a as [|x a IH]; [reflexivity|].
  now rewrite !append_String, IH.
Qed.

Lemma subst_char_app (d : ascii) (t a b : string) :
  subst_char d t (String.append a b)
  = String.append (subst_char d t a) (subst_char d t b).
Proof.
  induction a as [|x a IH]; [reflexivity|].
  rewrite append_String. cbn [subst_char].
  destruct (Ascii.eqb x d); rewrite IH; [now rewrite append_assoc | reflexivity].
Qed.

(** Two such replacements commute when neither inserted text contains the
    code unit the other one replaces. *)
Lemma subst_char_comm (d1 d2 : ascii) (t1 t2 s : string) :
  d1 <> d2 ->
  subst_char d1 t1 t2 = t2 ->
  subst_char d2 t2 t1 = t1 ->
  subst_char d1 t1 (subst_char d2 t2 s) = subst_char d2 t2 (subst_char d1 t1 s).
Proof.
  intros Hne H1 H2. induction s as [|a s IH]; [reflexivity|].
  cbn [subst_char].
  destruct (Ascii.eqb a d2) eqn:E2; destruct (Ascii.eqb a d1) eqn:E1.
  - apply Ascii.eqb_eq in E1, E2. congruence.
  - rewrite subst_char_app, H1, IH. cbn [subst_char]. now rewrite E2.
  - rewrite subst_char_app, H2, <- IH. cbn [subst_char]. now rewrite E1.
  - cbn [subst_char]. now rewrite E1, E2, IH.
Qed.

(** ** Occurrences of a three-unit pattern after a replacement *)

Section ThreeUnits.
Variables p1 p2 p3 : ascii.
Hypothesis p12 : p1 <> p2.
Hypothesis p13 : p1 <> p3.

(** Replacing [d] by a text that starts with [p1] creates no match of the
    pattern at a position that held another code unit. *)
Lemma prefix_subst_char (d a : ascii) (t s : string) :
  a <> d ->
  startsWith (three_units p1 p2 p3) (String a s) = false ->
  startsWith (three_units p1 p2 p3) (String a (subst_char d (String p1 t) s)) = false.
Proof using p12 p13.
  intros Had H. unfold three_units in *.
  assert (E21 : Ascii.eqb p2 p1 = false) by (apply Ascii.eqb_neq; congruence).
  assert (E31 : Ascii.eqb p3 p1 = false) by (apply Ascii.eqb_neq; congruence).
  cbn [startsWith] in H |- *.
  destruct (Ascii.eqb p1 a); [cbn [andb] in *|reflexivity].
  destruct s as [|b s]; [reflexivity|].
  cbn [subst_char]. destruct (Ascii.eqb b d).
  { rewrite append_String. now rewrite E21. }
  destruct (Ascii.eqb p2 b); [cbn [andb] in *|reflexivity].
  destruct s as [|e s]; [reflexivity|].
  cbn [subst_char]. destruct (Ascii.eqb e d).
  { rewrite append_String. now rewrite E31. }
  exact H.
Qed.

(** Escaping then unescaping one code unit, on a string free of the
    pattern. *)
Lemma unescape_escape_one (d : ascii) (s : string) :
  includes (three_units p1 p2 p3) s = false ->
  replaceAll (literal (three_units p1 p2 p3) (String d EmptyString)) (subst_char d (three_units p1 p2 p3) s) = s.
Proof using p12 p13.
  induction s as [|a s IH]; intros H; [reflexivity|].
  cbn [includes] in H. apply orb_false_iff in H as [Hp Hs].
  cbn [subst_char]. destruct (Ascii.eqb a d) eqn:E.
  - apply Ascii.eqb_eq in E. subst a.
    unfold three_units at 1 2. rewrite replaceAll_literal_hit. fold (three_units p1 p2 p3).
    now rewrite IH.
  - apply Ascii.eqb_neq in E.
    rewrite replaceAll_literal_miss.
    + now rewrite IH.
    + now apply prefix_subst_char.
Qed.

(** Escaping another code unit keeps the string free of the pattern. *)
Lemma includes_subst_char (d y : ascii) (s : string) :
  y <> p3 -> y <> p1 ->
  includes (three_units p1 p2 p3) s = false ->
  includes (three_units p1 p2 p3) (subst_char d (three_units p1 p2 y) s) = false.
Proof using p12 p13.
  intros Hy3 Hy1. induction s as [|a s IH]; intros H; [exact H|].
  cbn [includes] in H. apply orb_false_iff in H as [Hp Hs].
  specialize (IH Hs). cbn [subst_char].
  destruct (Ascii.eqb a d) eqn:E.
  - change (three_units p1 p2 y) with (String p1 (String p2 (String y EmptyString))) at 1.
    rewrite !append_String, append_Empty. cbn [includes]. rewrite IH.
    unfold three_units. cbn [startsWith].
    assert (E3y : Ascii.eqb p3 y = false) by (apply Ascii.eqb_neq; congruence).
    assert (E1y : Ascii.eqb p1 y = false) by (apply Ascii.eqb_neq; congruence).
    assert (E12 : Ascii.eqb p1 p2 = false) by (apply Ascii.eqb_neq; congruence).
    rewrite E3y, E1y, E12, !andb_false_r. reflexivity.
  - apply Ascii.eqb_neq in E. cbn [includes]. rewrite IH.
    change (three_units p1 p2 y) with (String p1 (String p2 (String y EmptyString))).
    rewrite prefix_subst_char; auto.
Qed.
End ThreeUnits.

Lemma startsWith_split (p s : string) :
  startsWith p s = true -> exists b, s = String.append p b.
Proof.
  revert s. induction p as [|c p IH]; intros s H.
  - exists s. reflexivity.
  - destruct s as [|x s]; [discriminate|]. cbn [startsWith] in H.
    apply andb_true_iff in H as [Hc Hp]. apply Ascii.eqb_eq in Hc. subst x.
    destruct (IH _ Hp) as [b ->]. exists b. reflexivity.
Qed.

(** [includes] is the substring relation. *)
Lemma includes_spec (p s : string) :
  includes p s = true <-> exists a b, s = String.append a (String.append p b).
Proof.
  split.
  - induction s as [|c s IH]; cbn [includes]; intros H.
    + rewrite orb_false_r in H. apply startsWith_split in H as [b Hb].
      exists EmptyString, b. exact Hb.
    + apply orb_true_iff in H as [H|H].
      * apply startsWith_split in H as [b Hb]. exists EmptyString, b. exact Hb.
      * destruct (IH H) as (a & b & ->). exists (String c a), b. reflexivity.
  - intros (a & b & ->). induction a as [|c a IH].
    + rewrite append_Empty.
      destruct (String.append p b) eqn:E; cbn [includes]; rewrite <- E, prefix_app; reflexivity.
    + rewrite append_String. cbn [includes]. rewrite IH. apply orb_true_r.
Qed.

(** C9. For every URL [u] that contains none of the substrings "%28",
    "%29" and "%20", [unescapeLinkUrl (escapeLinkUrl u) = u]: escaping
    [(], [)] and the space and then unescaping is the identity. *)
Theorem unescape_escape_LinkUrl (u : string) :
  includes "%28" u = false ->
  includes "%29" u = false ->
  includes "%20" u = false ->
  unescapeLinkUrl (escapeLinkUrl u) = u.
Proof.
  intros H28 H29 H20. unfold unescapeLinkUrl, escapeLinkUrl.
  rewrite !replaceAll_char.
  (* bring the escape of "(" to the outside *)
  rewrite (subst_char_comm ")" "(" "%29" "%28" u) by (reflexivity || discriminate).
  rewrite (subst_char_comm " " "(" "%20" "%28") by (reflexivity || discriminate).
  rewrite (unescape_escape_one "%" "2" "8") by
    (try discriminate;
     apply (includes_subst_char "%" "2" "8"); try discriminate;
     apply (includes_subst_char "%" "2" "8"); try discriminate; exact H28).
  (* then the escape of ")" *)
  rewrite (subst_char_comm " " ")" "%20" "%29" u) by (reflexivity || discriminate).
  rewrite (unescape_escape_one "%" "2" "9") by
    (try discriminate;
     apply (includes_subst_char "%" "2" "9"); try discriminate; exact H29).
  now rewrite (unescape_escape_one "%" "2" "0") by (try discriminate; exact H20).
Qed.

Lemma unescape_escape_LinkUrl_witness :
  includes "%28" "my (first) note.md" = false /\
  includes "%29" "my (first) note.md" = false /\
  includes "%20" "my (first) note.md" = false /\
  unescapeLinkUrl (escapeLinkUrl "my (first) note.md") = "my (first) note.md".
Proof.
  split; [reflexivity|]. split; [reflexivity|]. split; [reflexivity|].
  apply unescape_escape_LinkUrl; reflexivity.
Defined.

(** The hypothesis is needed: a URL that already holds an escape sequence
    is not restored. *)
Example unescape_escape_LinkUrl_needs_hyp :
  unescapeLinkUrl (escapeLinkUrl "a%20b") = "a b".
Proof. reflexivity. Qed.

(** ** titleFromBody *)

Lemma length_substring_le (n : nat) (s : string) :
  String.length (String.substring 0 n s) <= n.
Proof.
  revert s. induction n as [|n IH]; intros [|c s]; cbn [String.substring String.length]; try lia.
  specialize (IH s). lia.
Qed.

(** The early return on an empty body agrees with the general path, so the
    title is a function of the first line of the trimmed body. *)
Lemma titleFromBody_first_line (body : string) :
  titleFromBody body
  = title_of_line (trim (hd EmptyString (split "010" (trim body)))).
Proof.
  unfold titleFromBody. destruct (String.eqb body EmptyString) eqn:E; [|reflexivity].
  apply String.eqb_eq in E. subst body. reflexivity.
Qed.

(** C10. For every body, [titleFromBody body] has at most 80 code units; it
    is empty when the body is empty; and it is derived from the first line
    of the trimmed body only: two bodies whose trimmed texts start with the
    same line have the same title. *)
Theorem titleFromBody_spec :
  (forall body, String.length (titleFromBody body) <= 80) /\
  titleFromBody EmptyString = EmptyString /\
  (forall body1 body2,
      hd EmptyString (split "010" (trim body1))
      = hd EmptyString (split "010" (trim body2)) ->
      titleFromBody body1 = titleFromBody body2).
Proof.
  split; [|split].
  - intros body. rewrite titleFromBody_first_line. unfold title_of_line.
    apply length_substring_le.
  - reflexivity.
  - intros body1 body2 H. rewrite !titleFromBody_first_line. now rewrite H.
Qed.

Lemma titleFromBody_spec_witness :
  let body1 := String.append "# Shopping list" (String "010" "- eggs") in
  let body2 := String.append "  # Shopping list" (String "010" (String "010" "- milk")) in
  hd EmptyString (split "010" (trim body1)) = hd EmptyString (split "010" (trim body2)) /\
  titleFromBody body1 = titleFromBody body2 /\
  titleFromBody body1 = "Shopping list".
Proof.
  split; [reflexivity|]. split; [|reflexivity].
  apply (proj2 (proj2 titleFromBody_spec)). reflexivity.
Defined.

Example titleFromBody_truncates :
  String.length
    (titleFromBody
       "0123456789012345678901234567890123456789012345678901234567890123456789012345678901234567890123456789")
  = 80.
Proof. reflexivity. Qed.

(** ** escapeLinkUrl and unescapeLinkUrl, the other way round *)

Lemma has_char_app (c : ascii) (a b : string) :
  has_char c (String.append a b) = has_char c a || has_char c b.
Proof.
  induction a as [|x a IH]; [reflexivity|].
  rewrite append_String. cbn [has_char]. now rewrite IH, orb_assoc.
Qed.

Lemma has_char_subst_same (d : ascii) (t s : string) :
  has_char d t = false -> has_char d (subst_char d t s) = false.
Proof.
  intros Ht. induction s as [|a s IH]; [reflexivity|]. cbn [subst_char].
  destruct (Ascii.eqb a d) eqn:E.
  - now rewrite has_char_app, Ht, IH.
  - cbn [has_char]. now rewrite E, IH.
Qed.

Lemma has_char_subst_other (e d : ascii) (t s : string) :
  has_char e t = false -> has_char e s = false ->
  has_char e (subst_char d t s) = false.
Proof.
  intros Ht. induction s as [|a s IH]; [reflexivity|]. cbn [subst_char has_char].
  intros H. apply orb_false_iff in H as [Ha Hs].
  destruct (Ascii.eqb a d).
  - now rewrite has_char_app, Ht, IH.
  - cbn [has_char]. now rewrite Ha, IH.
Qed.

Lemma escapeLinkUrl_subst (u : string) :
  escapeLinkUrl u
  = subst_char " " "%20" (subst_char ")" "%29" (subst_char "(" "%28" u)).
Proof. unfold escapeLinkUrl. now rewrite !replaceAll_char. Qed.

(** X1. An escaped URL holds no opening parenthesis, no closing
    parenthesis and no space. *)
Theorem escapeLinkUrl_no_raw (u : string) :
  has_char "(" (escapeLinkUrl u) = false
  /\ has_char ")" (escapeLinkUrl u) = false
  /\ has_char " " (escapeLinkUrl u) = false.
Proof.
  rewrite escapeLinkUrl_subst. repeat split.
  - apply has_char_subst_other; [reflexivity|].
    apply has_char_subst_other; [reflexivity|].
    now apply has_char_subst_same.
  - apply has_char_subst_other; [reflexivity|].
    now apply has_char_subst_same.
  - now apply has_char_subst_same.
Qed.

(** Induction on strings by length. *)
Lemma string_length_ind (P : string -> Prop) :
  (forall s, (forall t, String.length t < String.length s -> P t) -> P s) ->
  forall s, P s.
Proof.
  intros H s. remember (String.length s) as n eqn:Hn.
  revert s Hn. induction n as [n IH] using lt_wf_ind.
  intros s ->. apply H. intros t Ht. now apply (IH (String.length t)).
Qed.

Lemma length_append (a b : string) :
  String.length (String.append a b) = String.length a + String.length b.
Proof.
  induction a as [|x a IH]; [reflexivity|].
  rewrite append_String. cbn [String.length]. now rewrite IH.
Qed.

Section Unescape.
Variables p1 p2 p3 : ascii.

Lemma replaceAll_three_hit (rep t : string) :
replaceAll (literal (three_units p1 p2 p3) rep) (String.append (three_units p1 p2 p3) t)
= String.append rep (replaceAll (literal (three_units p1 p2 p3) rep) t).
Proof. unfold three_units. apply replaceAll_literal_hit. Qed.

(** Unescaping then escaping one code unit, on a string free of that code
  unit. *)
Lemma escape_unescape_one (d : ascii) (s : string) :
has_char d s = false ->
subst_char d (three_units p1 p2 p3)
  (replaceAll (literal (three_units p1 p2 p3) (String d EmptyString)) s) = s.
Proof.
induction s as [s IH] using string_length_ind. intros Hd.
destruct (startsWith (three_units p1 p2 p3) s) eqn:Hp.
- apply startsWith_split in Hp as [rest ->].
  rewrite replaceAll_three_hit.
  rewrite append_String, append_Empty. cbn [subst_char]. rewrite Ascii.eqb_refl.
  rewrite has_char_app in Hd. apply orb_false_iff in Hd as [_ Hd].
  rewrite IH; [reflexivity| |exact Hd].
  rewrite length_append. cbn. lia.
- destruct s as [|a s]; [reflexivity|].
  rewrite replaceAll_literal_miss by exact Hp.
  cbn [has_char] in Hd. apply orb_false_iff in Hd as [Ha Hd].
  cbn [subst_char]. rewrite Ha. rewrite IH; [reflexivity| |exact Hd].
  cbn. lia.
Qed.

Hypothesis p12 : p1 <> p2.
Hypothesis p13 : p1 <> p3.

(** Escaping one code unit and unescaping another commute. *)
Lemma escape_unescape_comm (d c y : ascii) (s : string) :
d <> c -> d <> p1 -> d <> p2 -> d <> p3 -> y <> p3 -> y <> p1 ->
subst_char d (three_units p1 p2 y)
  (replaceAll (literal (three_units p1 p2 p3) (String c EmptyString)) s)
= replaceAll (literal (three_units p1 p2 p3) (String c EmptyString))
    (subst_char d (three_units p1 p2 y) s).
Proof using p12 p13.
intros Hdc Hd1 Hd2 Hd3 Hy3 Hy1.
assert (Ecd : Ascii.eqb c d = false) by (apply Ascii.eqb_neq; congruence).
assert (E1d : Ascii.eqb p1 d = false) by (apply Ascii.eqb_neq; congruence).
assert (E2d : Ascii.eqb p2 d = false) by (apply Ascii.eqb_neq; congruence).
assert (E3d : Ascii.eqb p3 d = false) by (apply Ascii.eqb_neq; congruence).
assert (E3y : Ascii.eqb p3 y = false) by (apply Ascii.eqb_neq; congruence).
assert (E1y : Ascii.eqb p1 y = false) by (apply Ascii.eqb_neq; congruence).
assert (E12 : Ascii.eqb p1 p2 = false) by (apply Ascii.eqb_neq; congruence).
induction s as [s IH] using string_length_ind.
destruct (startsWith (three_units p1 p2 p3) s) eqn:Hp.
- apply startsWith_split in Hp as [rest ->].
  rewrite replaceAll_three_hit.
  rewrite (subst_char_app d _ (three_units p1 p2 p3) rest).
  assert (Hpat : subst_char d (three_units p1 p2 y) (three_units p1 p2 p3)
                 = three_units p1 p2 p3).
  { unfold three_units at 2 3. cbn [subst_char]. now rewrite E1d, E2d, E3d. }
  rewrite Hpat, replaceAll_three_hit.
  rewrite !append_String, !append_Empty. cbn [subst_char]. rewrite Ecd.
  f_equal. apply IH. rewrite length_append. cbn. lia.
- destruct s as [|a s]; [reflexivity|].
  rewrite replaceAll_literal_miss by exact Hp.
  cbn [subst_char]. destruct (Ascii.eqb a d) eqn:Ead.
  + (* the escape inserts its text; the unescape steps over it *)
    rewrite IH by (cbn; lia).
    change (three_units p1 p2 y) with (String p1 (String p2 (String y EmptyString))).
    rewrite !append_String, !append_Empty.
    rewrite replaceAll_literal_miss
      by (unfold three_units; cbn [startsWith]; now rewrite E3y, !andb_false_r).
    rewrite replaceAll_literal_miss
      by (unfold three_units; cbn [startsWith]; now rewrite E12).
    rewrite replaceAll_literal_miss
      by (unfold three_units; cbn [startsWith]; now rewrite E1y).
    reflexivity.
  + rewrite IH by (cbn; lia).
    rewrite replaceAll_literal_miss; [reflexivity|].
    change (three_units p1 p2 y) with (String p1 (String p2 (String y EmptyString))).
    apply prefix_subst_char; auto. apply Ascii.eqb_neq. exact Ead.
Qed.
End Unescape.

(** X2. For every URL that holds no parenthesis and no space,
    [escapeLinkUrl (unescapeLinkUrl u) = u]: unescaping and then escaping is
    the identity. *)
Theorem escape_unescape_LinkUrl (u : string) :
  has_char "(" u = false ->
  has_char ")" u = false ->
  has_char " " u = false ->
  escapeLinkUrl (unescapeLinkUrl u) = u.
Proof.
  intros Ho Hc Hs. rewrite escapeLinkUrl_subst. unfold unescapeLinkUrl.
  change "%28" with (three_units "%" "2" "8").
  change "%29" with (three_units "%" "2" "9").
  change "%20" with (three_units "%" "2" "0").
  rewrite (escape_unescape_comm "%" "2" "0") by discriminate.
  rewrite (escape_unescape_comm "%" "2" "9") by discriminate.
  rewrite (escape_unescape_one "%" "2" "8") by exact Ho.
  rewrite (escape_unescape_comm "%" "2" "0") by discriminate.
  rewrite (escape_unescape_one "%" "2" "9") by exact Hc.
  now rewrite (escape_unescape_one "%" "2" "0") by exact Hs.
Qed.

Lemma escape_unescape_LinkUrl_witness :
  has_char "(" "my%20%28first%29%20note.md" = false
  /\ has_char ")" "my%20%28first%29%20note.md" = false
  /\ has_char " " "my%20%28first%29%20note.md" = false
  /\ escapeLinkUrl (unescapeLinkUrl "my%20%28first%29%20note.md")
     = "my%20%28first%29%20note.md".
Proof.
  split; [reflexivity|]. split; [reflexivity|]. split; [reflexivity|].
  apply escape_unescape_LinkUrl; reflexivity.
Defined.

(** ** escapeTitleText and escapeTableCell *)

Lemma escapeTitleText_cons (c : ascii) (s : string) :
  escapeTitleText (String c s)
  = if is_bracket c then String "092" (String c (escapeTitleText s))
    else String c (escapeTitleText s).
Proof.
  unfold escapeTitleText, replaceAll. cbn [replace_g bracketRegex]. fold (is_bracket c).
  destruct (is_bracket c); reflexivity.
Qed.

Lemma all_escaped_escapeTitleText (prev : option ascii) (s : string) :
  all_escaped is_bracket prev (escapeTitleText s) = true.
Proof.
  revert prev. induction s as [|c s IH]; intros prev; [reflexivity|].
  rewrite escapeTitleText_cons. destruct (is_bracket c) eqn:E.
  - cbn [all_escaped]. rewrite E, IH. cbn. reflexivity.
  - cbn [all_escaped]. now rewrite E, IH.
Qed.

(** X3. In an escaped title text every bracket comes right after a
    backslash; the text grows by one code unit per bracket; and a text
    without brackets is returned as it is. *)
Theorem escapeTitleText_spec (text : string) :
  all_escaped is_bracket None (escapeTitleText text) = true
  /\ String.length (escapeTitleText text)
     = String.length text + count_char "[" text + count_char "]" text
  /\ (has_char "[" text = false -> has_char "]" text = false ->
      escapeTitleText text = text).
Proof.
  split; [apply all_escaped_escapeTitleText|]. split.
  - induction text as [|c s IH]; [reflexivity|].
    rewrite escapeTitleText_cons. unfold is_bracket. cbn [count_char String.length].
    destruct (Ascii.eqb c "[") eqn:E1; destruct (Ascii.eqb c "]") eqn:E2;
      cbn [orb String.length]; rewrite IH; try lia.
    apply Ascii.eqb_eq in E1, E2. congruence.
  - induction text as [|c s IH]; [reflexivity|]. cbn [has_char].
    intros H1 H2. apply orb_false_iff in H1 as [H1 H1'], H2 as [H2 H2'].
    rewrite escapeTitleText_cons. unfold is_bracket. rewrite H1, H2. cbn [orb].
    now rewrite IH.
Qed.

Lemma escapeTitleText_spec_witness :
  has_char "[" "plain title" = false /\ has_char "]" "plain title" = false
  /\ escapeTitleText "plain title" = "plain title".
Proof.
  split; [reflexivity|]. split; [reflexivity|].
  apply (proj2 (proj2 (escapeTitleText_spec "plain title"))); reflexivity.
Defined.

Lemma escapeTableCell_subst (text : string) :
  escapeTableCell text
  = subst_char "|" (String "092" "|")
      (subst_char "010" "<br/>"
         (subst_char ">" "&gt;" (subst_char "<" "&lt;" text))).
Proof. unfold escapeTableCell. now rewrite !replaceAll_char. Qed.

Lemma all_escaped_subst_pipe (prev : option ascii) (s : string) :
  all_escaped is_pipe_char prev (subst_char "|" (String "092" "|") s) = true.
Proof.
  revert prev. induction s as [|c s IH]; intros prev; [reflexivity|].
  cbn [subst_char]. destruct (Ascii.eqb c "|") eqn:E.
  - rewrite !append_String, append_Empty. cbn [all_escaped]. rewrite IH. reflexivity.
  - cbn [all_escaped]. unfold is_pipe_char at 1. now rewrite E, IH.
Qed.

(** X4. An escaped table cell holds no line feed, every [|] in it comes
    right after a backslash, and it holds as many [<] and as many [>] as the
    text has line feeds: those of the [<br/>] that stand for them. *)
Theorem escapeTableCell_spec (text : string) :
  has_char "010" (escapeTableCell text) = false
  /\ all_escaped is_pipe_char None (escapeTableCell text) = true
  /\ count_char "<" (escapeTableCell text) = count_char "010" text
  /\ count_char ">" (escapeTableCell text) = count_char "010" text.
Proof.
  rewrite escapeTableCell_subst. split; [|split].
  - apply has_char_subst_other; [reflexivity|].
    now apply has_char_subst_same.
  - apply all_escaped_subst_pipe.
  - assert (H : forall c s, (c = "<" \/ c = ">")%char ->
                count_char c
                  (subst_char "|" (String "092" "|")
                     (subst_char "010" "<br/>"
                        (subst_char ">" "&gt;" (subst_char "<" "&lt;" s))))
                = count_char "010" s).
    { intros c s Hc. induction s as [|a s IH]; [reflexivity|].
      cbn [subst_char count_char].
      destruct (Ascii.eqb a "<") eqn:E1.
      { apply Ascii.eqb_eq in E1. subst a.
        rewrite !append_String, append_Empty. cbn [subst_char Ascii.eqb Bool.eqb andb].
        cbn [count_char]. rewrite IH.
        destruct Hc as [-> | ->]; reflexivity. }
      cbn [subst_char]. destruct (Ascii.eqb a ">") eqn:E2.
      { apply Ascii.eqb_eq in E2. subst a.
        rewrite !append_String, append_Empty. cbn [subst_char Ascii.eqb Bool.eqb andb].
        cbn [count_char]. rewrite IH.
        destruct Hc as [-> | ->]; reflexivity. }
      cbn [subst_char]. destruct (Ascii.eqb a "010") eqn:E3.
      { apply Ascii.eqb_eq in E3. subst a.
        rewrite !append_String, append_Empty. cbn [subst_char Ascii.eqb Bool.eqb andb].
        cbn [count_char]. rewrite IH.
        destruct Hc as [-> | ->]; reflexivity. }
      cbn [subst_char]. destruct (Ascii.eqb a "|") eqn:E4.
      { apply Ascii.eqb_eq in E4. subst a.
        rewrite !append_String, append_Empty. cbn [count_char]. rewrite IH.
        destruct Hc as [-> | ->]; reflexivity. }
      cbn [count_char]. rewrite IH.
      destruct Hc as [-> | ->]; [rewrite E1 | rewrite E2]; reflexivity. }
    split; apply H; auto.
Qed.

(** ** countTableColumns and matchingTableDivider *)

Lemma count_char_none (c : ascii) (p : ascii -> bool) (s : string) :
  p c = false -> all_chars p s = true -> count_char c s = 0.
Proof.
  intros Hc. induction s as [|a s IH]; [reflexivity|]. cbn [all_chars count_char].
  intros H. apply andb_true_iff in H as [Ha Hs]. rewrite (IH Hs).
  destruct (Ascii.eqb a c) eqn:E; [|reflexivity].
  apply Ascii.eqb_eq in E. subst a. congruence.
Qed.

Lemma count_char_span (c : ascii) (p : ascii -> bool) (s : string) :
  p c = false -> count_char c (snd (span p s)) = count_char c s.
Proof.
  intros Hc. induction s as [|a s IH]; [reflexivity|]. cbn [span].
  destruct (p a) eqn:Ha.
  - destruct (span p s) as [x y]. cbn [snd] in *. cbn [count_char]. rewrite IH.
    destruct (Ascii.eqb a c) eqn:E; [|reflexivity].
    apply Ascii.eqb_eq in E. subst a. congruence.
  - reflexivity.
Qed.

Lemma count_char_trimEnd (c : ascii) (s : string) :
  is_js_whitespace c = false -> count_char c (trimEnd s) = count_char c s.
Proof.
  intros Hc. induction s as [|a s IH]; [reflexivity|]. cbn [trimEnd count_char].
  destruct (trimEnd s) as [|b t] eqn:Et.
  - cbn [count_char] in IH. rewrite <- IH.
    destruct (is_js_whitespace a) eqn:Ha; cbn [count_char]; [|lia].
    destruct (Ascii.eqb a c) eqn:E; [|reflexivity].
    apply Ascii.eqb_eq in E. subst a. congruence.
  - cbn [count_char] in *. now rewrite IH.
Qed.

(** Trimming removes no code unit other than white space. *)
Lemma count_char_trim (c : ascii) (s : string) :
  is_js_whitespace c = false -> count_char c (trim s) = count_char c s.
Proof.
  intros Hc. unfold trim, trimStart.
  now rewrite count_char_trimEnd, count_char_span.
Qed.

Lemma last_char_pipe_count (s : string) :
  is_pipe (last_char s) = true -> 1 <= count_char "|" s.
Proof.
  induction s as [|a s IH]; [discriminate|]. cbn [last_char count_char].
  destruct s as [|b s].
  - cbn [is_pipe]. intros ->. cbn. lia.
  - intros H. specialize (IH H). lia.
Qed.

(** The count in terms of the trimmed line. *)
Lemma countTableColumns_trimmed (line : string) :
  line <> EmptyString ->
  countTableColumns line
  = match trim line with
    | EmptyString => 1%Z
    | String c EmptyString => if Ascii.eqb c "|" then 0%Z else 1%Z
    | String c t =>
        (Z.of_nat (count_char "|" t) + 1
         - (if is_pipe (last_char t) then 1 else 0))%Z
    end.
Proof.
  intros Hne. unfold countTableColumns.
  apply String.eqb_neq in Hne. rewrite Hne.
  rewrite <- (count_char_trim "|" line) by reflexivity.
  destruct (trim line) as [|c t]; [reflexivity|].
  cbn [first_char String.get is_pipe count_char].
  destruct t as [|b t].
  - cbn [last_char is_pipe count_char]. destruct (Ascii.eqb c "|"); reflexivity.
  - change (last_char (String c (String b t))) with (last_char (String b t)).
    destruct (Ascii.eqb c "|"); destruct (is_pipe (last_char (String b t))); lia.
Qed.

(** The sign of the column count, and where it is zero. *)
Lemma countTableColumns_sign (line : string) :
  (0 <= countTableColumns line)%Z
  /\ (countTableColumns line = 0%Z <-> line = EmptyString \/ trim line = "|").
Proof.
  destruct (String.eqb line EmptyString) eqn:E.
  - apply String.eqb_eq in E. subst line. cbn. split; [lia|]. tauto.
  - apply String.eqb_neq in E. rewrite (countTableColumns_trimmed line E).
    destruct (trim line) as [|c [|b t]].
    + split; [lia|]. split; [discriminate|]. intros [H|H]; [contradiction|discriminate].
    + destruct (Ascii.eqb c "|") eqn:Ec.
      * apply Ascii.eqb_eq in Ec. subst c. split; [lia|]. tauto.
      * split; [lia|]. split; [discriminate|].
        intros [H|[= H]]; [contradiction|]. subst c. discriminate.
    + pose proof (last_char_pipe_count (String b t)) as Hl.
      destruct (is_pipe (last_char (String b t))).
      * specialize (Hl eq_refl). split; [lia|]. split; [lia|].
        intros [H|H]; [contradiction|discriminate].
      * split; [lia|]. split; [lia|].
        intros [H|H]; [contradiction|discriminate].
Qed.

(** X5. [countTableColumns] never returns a negative number, and it
    returns 0 only for the empty line and for a line that is a single [|]
    once trimmed; every other line has at least one column. *)
Theorem countTableColumns_spec (line : string) :
  (0 <= countTableColumns line)%Z
  /\ (countTableColumns line = 0%Z <-> line = EmptyString \/ trim line = "|")
  /\ (line <> EmptyString -> trim line <> "|" -> (1 <= countTableColumns line)%Z).
Proof.
  destruct (countTableColumns_sign line) as [Hpos Hzero].
  split; [exact Hpos|]. split; [exact Hzero|].
  intros Hline Htrim.
  assert (countTableColumns line <> 0%Z) by (rewrite Hzero; tauto). lia.
Qed.

Lemma countTableColumns_spec_witness :
  "| a | b |" <> EmptyString /\ trim "| a | b |" <> "|"
  /\ (1 <= countTableColumns "| a | b |")%Z.
Proof.
  split; [discriminate|]. split; [discriminate|].
  apply (proj2 (proj2 (countTableColumns_spec "| a | b |"))); discriminate.
Defined.

(** A row with a pipe at both ends has one column less than it has
    pipes. *)
Example countTableColumns_row : countTableColumns "| a | b | c |" = 3%Z.
Proof. reflexivity. Qed.

(** X6. [matchingTableDivider header divider] holds exactly when the
    header is not empty, the divider is made of white space, [-], [:] and
    [|] only, is not empty and is not a single [|] once trimmed, and has at
    least as many columns as the header. *)
Theorem matchingTableDivider_spec (header divider : string) :
  matchingTableDivider header divider = true
  <-> header <> EmptyString
      /\ divider <> EmptyString
      /\ all_chars divider_class divider = true
      /\ trim divider <> "|"
      /\ (countTableColumns header <= countTableColumns divider)%Z.
Proof.
  unfold matchingTableDivider.
  destruct (countTableColumns_sign divider) as [Hpos Hzero].
  destruct (String.eqb header EmptyString) eqn:Eh.
  { apply String.eqb_eq in Eh. cbn [orb]. split; [discriminate|]. tauto. }
  destruct (String.eqb divider EmptyString) eqn:Ed.
  { apply String.eqb_eq in Ed. cbn [orb]. split; [discriminate|]. tauto. }
  apply String.eqb_neq in Eh, Ed. cbn [orb].
  destruct (all_chars divider_class divider); cbn [negb].
  - rewrite andb_true_iff, Z.ltb_lt, Z.leb_le. split.
    + intros [H1 H2]. repeat split; auto.
      intros Ht. assert (countTableColumns divider = 0%Z) by (apply Hzero; auto). lia.
    + intros (_ & _ & _ & Ht & Hle). split; [|exact Hle].
      destruct (Z.eq_dec (countTableColumns divider) 0%Z) as [H0|H0]; [|lia].
      apply Hzero in H0 as [H0|H0]; contradiction.
  - split; [discriminate|]. intros (_ & _ & H & _). discriminate.
Qed.

Lemma matchingTableDivider_spec_witness :
  matchingTableDivider "| name | size |" "| --- | :-: |" = true
  /\ (countTableColumns "| name | size |" <= countTableColumns "| --- | :-: |")%Z.
Proof.
  split; [reflexivity|].
  apply (matchingTableDivider_spec "| name | size |" "| --- | :-: |"). reflexivity.
Defined.

(** ** List items *)

Lemma span_spec (p : ascii -> bool) (s : string) :
  s = String.append (fst (span p s)) (snd (span p s))
  /\ all_chars p (fst (span p s)) = true
  /\ match snd (span p s) with
     | EmptyString => True
     | String c _ => p c = false
     end.
Proof.
  induction s as [|a s IH]; [repeat split|]. cbn [span].
  destruct (p a) eqn:Ha.
  - destruct (span p s) as [x y]. cbn [fst snd] in *.
    destruct IH as (Hs & Hx & Hy). rewrite append_String, <- Hs.
    cbn [all_chars]. rewrite Ha, Hx. repeat split. exact Hy.
  - cbn [fst snd]. repeat split. exact Ha.
Qed.

Lemma space_to_end_head (s : string) :
  space_to_end s = true ->
  exists w rest, s = String w rest /\ is_js_whitespace w = true.
Proof.
  destruct s as [|w rest]; [discriminate|]. cbn [space_to_end all_chars].
  intros H. apply andb_true_iff in H as [Hw _]. eauto.
Qed.

Lemma empty_checkbox_token (indent s : string) (m : ListMatch) :
  empty_checkbox indent s = Some m -> exists t, token_checkbox s = Some t.
Proof.
  unfold empty_checkbox, token_checkbox.
  destruct s as [|b [|sp [|lb [|x [|rb rest]]]]]; try discriminate.
  destruct (is_bullet b && Ascii.eqb sp " " && Ascii.eqb lb "["
            && (Ascii.eqb x "x" || Ascii.eqb x " ") && Ascii.eqb rb "]") eqn:E;
    [|discriminate].
  cbn [andb]. destruct (space_to_end rest) eqn:Er; [|discriminate].
  destruct (space_to_end_head rest Er) as (w & rest' & -> & Hw).
  rewrite Hw. eauto.
Qed.

Lemma empty_bullet_token (indent s : string) (m : ListMatch) :
  empty_bullet indent s = Some m -> exists t, token_bullet s = Some t.
Proof.
  unfold empty_bullet, token_bullet.
  destruct s as [|b rest]; [discriminate|].
  destruct (is_bullet b); [|discriminate]. cbn [andb].
  destruct (space_to_end rest) eqn:Er; [|discriminate].
  destruct (space_to_end_head rest Er) as (w & rest' & -> & Hw).
  rewrite Hw. eauto.
Qed.

Lemma empty_ordered_token (indent s : string) (m : ListMatch) :
  empty_ordered indent s = Some m -> exists t, token_ordered s = Some t.
Proof.
  unfold empty_ordered, token_ordered.
  destruct (span is_digit s) as [digits s1].
  destruct digits as [|d digits]; [discriminate|].
  destruct s1 as [|p rest]; [discriminate|].
  destruct (Ascii.eqb p "." || Ascii.eqb p ")"); [|discriminate]. cbn [andb].
  destruct (space_to_end rest) eqn:Er; [|discriminate].
  destruct (space_to_end_head rest Er) as (w & rest' & -> & Hw).
  rewrite Hw. eauto.
Qed.

Lemma first_match_some {A} (a b c : option A) :
  (exists m, a = Some m) \/ (exists m, b = Some m) \/ (exists m, c = Some m) ->
  exists m, first_match a b c = Some m.
Proof.
  unfold first_match. destruct a as [x|]; [eauto|]. destruct b as [y|]; [eauto|].
  intros [[m H]|[[m H]|H]]; try discriminate H. exact H.
Qed.

Lemma first_match_inv {A} (a b c : option A) (m : A) :
  first_match a b c = Some m -> a = Some m \/ b = Some m \/ c = Some m.
Proof.
  unfold first_match. destruct a; [auto|]. destruct b; auto.
Qed.

(** X7. A line that [isEmptyListItem] accepts is a list item for
    [isListItem] as well. *)
Theorem isEmptyListItem_isListItem (line : string) :
  isEmptyListItem line = true -> isListItem line = true.
Proof.
  unfold isEmptyListItem, isListItem, emptyListRegex, listRegex.
  destruct (span is_js_whitespace line) as [indent s].
  destruct (first_match (empty_checkbox indent s) _ _) as [m|] eqn:E; [|discriminate].
  intros _. apply first_match_inv in E.
  assert (Ht : exists t, list_token s = Some t).
  { apply first_match_some. destruct E as [E|[E|E]].
    - left. eapply empty_checkbox_token; eauto.
    - right; left. eapply empty_bullet_token; eauto.
    - right; right. eapply empty_ordered_token; eauto. }
  destruct Ht as [[[token number] rest] ->]. reflexivity.
Qed.

Lemma isEmptyListItem_isListItem_witness :
  isEmptyListItem "  - [ ] " = true /\ isListItem "  - [ ] " = true.
Proof.
  split; [reflexivity|]. apply isEmptyListItem_isListItem. reflexivity.
Defined.

(** The token of each alternative sits at the start of the input, is not
    empty and ends with white space. *)
Lemma list_token_spec (s token rest : string) (number : option string) :
  list_token s = Some (token, number, rest) ->
  s = String.append token rest
  /\ token <> EmptyString
  /\ (exists w, last_char token = Some w /\ is_js_whitespace w = true).
Proof.
  intros H. apply first_match_inv in H as [H|[H|H]].
  - unfold token_checkbox in H.
    destruct s as [|b [|sp [|lb [|x [|rb [|w r]]]]]]; try discriminate.
    destruct (is_bullet b && Ascii.eqb sp " " && Ascii.eqb lb "["
              && (Ascii.eqb x "x" || Ascii.eqb x " ") && Ascii.eqb rb "]"); [|discriminate].
    cbn [andb] in H. destruct (is_js_whitespace w) eqn:Hw; [|discriminate].
    injection H as <- <- <-. repeat split; [discriminate|]. exists w. auto.
  - unfold token_bullet in H.
    destruct s as [|b [|w r]]; try discriminate.
    destruct (is_bullet b); [|discriminate]. cbn [andb] in H.
    destruct (is_js_whitespace w) eqn:Hw; [|discriminate].
    injection H as <- <- <-. repeat split; [discriminate|]. exists w. auto.
  - unfold token_ordered in H.
    pose proof (span_spec is_digit s) as (Hs & _ & _).
    destruct (span is_digit s) as [digits s1]. cbn [fst snd] in Hs.
    destruct digits as [|d digits]; [discriminate|].
    destruct s1 as [|p [|w r]]; try discriminate.
    destruct (Ascii.eqb p "." || Ascii.eqb p ")"); [|discriminate]. cbn [andb] in H.
    destruct (is_js_whitespace w) eqn:Hw; [|discriminate].
    injection H as <- <- <-. split; [|split].
    + rewrite Hs, append_assoc. reflexivity.
    + rewrite append_String. discriminate.
    + exists w. split; [|exact Hw]. clear.
      generalize (String d digits). intros t.
      induction t as [|a t IH]; [reflexivity|].
      rewrite append_String. cbn [last_char].
      destruct (String.append t (String p (String w EmptyString))) eqn:E; [|exact IH].
      destruct t; discriminate E.
Qed.

(** X8. [extractListToken] returns a token exactly for the lines that
    [isListItem] accepts; the line is then some white space, the token and
    a rest, and the token ends with white space. *)
Theorem extractListToken_spec (line : string) :
  (extractListToken line <> EmptyString <-> isListItem line = true)
  /\ (isListItem line = true ->
      exists indent rest,
        line = String.append indent (String.append (extractListToken line) rest)
        /\ all_chars is_js_whitespace indent = true
        /\ exists w, last_char (extractListToken line) = Some w
                     /\ is_js_whitespace w = true).
Proof.
  unfold extractListToken, isListItem, listRegex.
  pose proof (span_spec is_js_whitespace line) as (Hline & Hindent & _).
  destruct (span is_js_whitespace line) as [indent s]. cbn [fst snd] in *.
  destruct (list_token s) as [[[token number] rest]|] eqn:E.
  - apply list_token_spec in E as (Hs & Hne & Hw). cbn [lm_token]. split.
    + split; auto.
    + intros _. exists indent, rest. rewrite <- Hs. auto.
  - split; [split; [congruence|discriminate]|discriminate].
Qed.

Lemma extractListToken_spec_witness :
  isListItem "  12. buy milk" = true
  /\ extractListToken "  12. buy milk" = "12. "
  /\ exists indent rest,
       "  12. buy milk"
       = String.append indent (String.append (extractListToken "  12. buy milk") rest).
Proof.
  split; [reflexivity|]. split; [reflexivity|].
  destruct (proj2 (extractListToken_spec "  12. buy milk") eq_refl)
    as (indent & rest & H & _).
  exists indent, rest. exact H.
Defined.

(** ** titleFromBody, continued *)

Lemma span_all (p : ascii -> bool) (s : string) :
  all_chars p s = true -> span p s = (s, EmptyString).
Proof.
  induction s as [|a s IH]; [reflexivity|]. cbn [all_chars span].
  intros H. apply andb_true_iff in H as [Ha Hs]. now rewrite Ha, (IH Hs).
Qed.

(** X9. A body made of white space only, line feeds included, has the
    empty title. *)
Theorem titleFromBody_blank (body : string) :
  all_chars is_js_whitespace body = true -> titleFromBody body = EmptyString.
Proof.
  intros H. rewrite titleFromBody_first_line.
  unfold trim at 2. unfold trimStart. rewrite (span_all _ _ H). reflexivity.
Qed.

Lemma titleFromBody_blank_witness :
  let body := String " " (String "010" (String "009" (String "010" " "))) in
  all_chars is_js_whitespace body = true /\ titleFromBody body = EmptyString.
Proof.
  cbv zeta. split; [reflexivity|]. apply titleFromBody_blank. reflexivity.
Defined.

Lemma has_char_fst_span (c : ascii) (p : ascii -> bool) (s : string) :
  has_char c s = false -> has_char c (fst (span p s)) = false.
Proof.
  induction s as [|a s IH]; [reflexivity|]. cbn [has_char span].
  intros H. apply orb_false_iff in H as [Ha Hs].
  destruct (p a); [|reflexivity].
  destruct (span p s) as [x y]. cbn [fst] in *. cbn [has_char]. now rewrite Ha, IH.
Qed.

Lemma has_char_snd_span (c : ascii) (p : ascii -> bool) (s : string) :
  has_char c s = false -> has_char c (snd (span p s)) = false.
Proof.
  induction s as [|a s IH]; [reflexivity|]. cbn [has_char span].
  intros H. destruct (p a).
  - apply orb_false_iff in H as [Ha Hs].
    destruct (span p s) as [x y]. cbn [snd] in *. now apply IH.
  - exact H.
Qed.

Lemma has_char_trimEnd (c : ascii) (s : string) :
  has_char c s = false -> has_char c (trimEnd s) = false.
Proof.
  induction s as [|a s IH]; [reflexivity|]. cbn [has_char trimEnd].
  intros H. apply orb_false_iff in H as [Ha Hs]. specialize (IH Hs).
  destruct (trimEnd s) as [|b t].
  - destruct (is_js_whitespace a); [reflexivity|]. cbn [has_char]. now rewrite Ha.
  - cbn [has_char] in *. now rewrite Ha, IH.
Qed.

Lemma has_char_trim (c : ascii) (s : string) :
  has_char c s = false -> has_char c (trim s) = false.
Proof. intros H. unfold trim, trimStart. now apply has_char_trimEnd, has_char_snd_span. Qed.

Lemma has_char_substring (c : ascii) (n : nat) (s : string) :
  has_char c s = false -> has_char c (String.substring 0 n s) = false.
Proof.
  revert s. induction n as [|n IH]; intros [|a s]; cbn [String.substring has_char]; auto.
  intros H. apply orb_false_iff in H as [Ha Hs]. now rewrite Ha, IH.
Qed.

Lemma split_not_nil (sep : ascii) (s : string) : split sep s <> [].
Proof.
  induction s as [|a s IH]; cbn [split]; [discriminate|].
  destruct (Ascii.eqb a sep); [discriminate|]. destruct (split sep s); [contradiction|discriminate].
Qed.

(** The first piece of a split holds no separator, and nothing that the
    input does not hold. *)
Lemma has_char_hd_split (c sep : ascii) (s : string) :
  (c = sep \/ has_char c s = false) ->
  has_char c (hd EmptyString (split sep s)) = false.
Proof.
  induction s as [|a s IH]; [reflexivity|]. cbn [split has_char]. intros H.
  destruct (Ascii.eqb a sep) eqn:E; [reflexivity|].
  pose proof (split_not_nil sep s) as Hne.
  destruct (split sep s) as [|l ls]; [contradiction|]. cbn [hd has_char] in *.
  destruct H as [->|H].
  - rewrite E. apply IH. now left.
  - apply orb_false_iff in H as [Ha Hs]. rewrite Ha. apply IH. now right.
Qed.

(** A global replacement whose matches are replaced by texts free of [c]
    brings no [c] into a string free of it. *)
Lemma has_char_replace_g (c : ascii) (m : Matcher) :
  (forall s r n, has_char c s = false -> m s = Some (r, n) -> has_char c r = false) ->
  forall s skip, has_char c s = false -> has_char c (replace_g m skip s) = false.
Proof.
  intros Hm. induction s as [|a s IH]; intros skip Hs.
  - destruct skip; cbn [replace_g]; [|reflexivity].
    destruct (m EmptyString) as [[r [|k]]|] eqn:E; try reflexivity; eapply Hm; eauto.
  - pose proof Hs as Hs'. cbn [has_char] in Hs'. apply orb_false_iff in Hs' as [Ha Hs'].
    destruct skip; cbn [replace_g]; [|now apply IH].
    destruct (m (String a s)) as [[r [|k]]|] eqn:E.
    + rewrite has_char_app. cbn [has_char]. rewrite (Hm _ _ _ Hs E), Ha. now apply IH.
    + rewrite has_char_app, (Hm _ _ _ Hs E). now apply IH.
    + cbn [has_char]. rewrite Ha. now apply IH.
Qed.

Lemma opt_bang_tail (c : ascii) (s : string) :
  has_char c s = false -> has_char c (snd (opt_bang s)) = false.
Proof.
  destruct s as [|a s]; [reflexivity|]. intros H.
  pose proof H as H'. cbn [has_char] in H'. apply orb_false_iff in H' as [_ H'].
  destruct a as [[] [] [] [] [] [] [] []]; cbn [opt_bang snd]; assumption.
Qed.

Lemma lazy_dots_then_close_chars (c : ascii) (s url rest : string) :
  has_char c s = false -> lazy_dots_then_close s = Some (url, rest) ->
  has_char c url = false.
Proof.
  destruct s as [|c0 s]; [discriminate|]. cbn [lazy_dots_then_close has_char].
  intros H. apply orb_false_iff in H as [H0 Hs].
  destruct (is_line_terminator c0); [discriminate|].
  pose proof (has_char_fst_span c
                (fun x => negb (is_line_terminator x) && negb (Ascii.eqb x ")")) s Hs) as Hg.
  destruct (span _ s) as [g r]. cbn [fst] in Hg.
  destruct r as [|x r']; [discriminate|].
  destruct x as [[] [] [] [] [] [] [] []]; try discriminate.
  intros [= <- _]. cbn [has_char]. now rewrite H0, Hg.
Qed.

Lemma mdLinkRegex_chars (c : ascii) (s r : string) (n : nat) :
  has_char c s = false -> mdLinkRegex s = Some (r, n) -> has_char c r = false.
Proof.
  intros Hs. unfold mdLinkRegex.
  pose proof (opt_bang_tail c s Hs) as H1.
  destruct (opt_bang s) as [k s1]. cbn [snd] in H1.
  destruct s1 as [|a s2]; [discriminate|].
  cbn [has_char] in H1. apply orb_false_iff in H1 as [_ H2].
  destruct a as [[] [] [] [] [] [] [] []]; try discriminate.
  pose proof (has_char_fst_span c (fun x => negb (Ascii.eqb x "]")) s2 H2) as Ht.
  destruct (span _ s2) as [text s3]. cbn [fst] in Ht.
  destruct text as [|t0 text]; [discriminate|].
  destruct s3 as [|x s3]; [discriminate|].
  destruct x as [[] [] [] [] [] [] [] []]; try discriminate.
  destruct s3 as [|y s4]; [discriminate|].
  destruct y as [[] [] [] [] [] [] [] []]; try discriminate.
  destruct (lazy_dots_then_close s4) as [[url rest]|]; [|discriminate].
  intros [= <- _]. exact Ht.
Qed.

Lemma emptyMdLinkRegex_chars (c : ascii) (s r : string) (n : nat) :
  has_char c s = false -> emptyMdLinkRegex s = Some (r, n) -> has_char c r = false.
Proof.
  intros Hs. unfold emptyMdLinkRegex.
  pose proof (opt_bang_tail c s Hs) as H1.
  destruct (opt_bang s) as [k s1]. cbn [snd] in H1.
  destruct s1 as [|a s2]; [discriminate|].
  cbn [has_char] in H1. apply orb_false_iff in H1 as [_ H2].
  destruct a as [[] [] [] [] [] [] [] []]; try discriminate.
  destruct s2 as [|x s3]; [discriminate|].
  cbn [has_char] in H2. apply orb_false_iff in H2 as [_ H3].
  destruct x as [[] [] [] [] [] [] [] []]; try discriminate.
  destruct s3 as [|y s4]; [discriminate|].
  cbn [has_char] in H3. apply orb_false_iff in H3 as [_ H4].
  destruct y as [[] [] [] [] [] [] [] []]; try discriminate.
  destruct (lazy_dots_then_close s4) as [[url rest]|] eqn:E; [|discriminate].
  intros [= <- _]. eapply lazy_dots_then_close_chars; eauto.
Qed.

Lemma has_char_title_of_line (c : ascii) (line : string) :
  has_char c line = false -> has_char c (title_of_line line) = false.
Proof.
  intros H. unfold title_of_line, replaceAll, filterRegex_replace.
  apply has_char_substring.
  apply has_char_replace_g; [apply emptyMdLinkRegex_chars|].
  apply has_char_replace_g; [apply mdLinkRegex_chars|].
  now apply has_char_snd_span.
Qed.

(** X10. The title holds no line feed, and no code unit that the body
    does not hold: it is cut out of the body, nothing is added. *)
Theorem titleFromBody_chars (body : string) :
  has_char "010" (titleFromBody body) = false
  /\ forall c, has_char c body = false -> has_char c (titleFromBody body) = false.
Proof.
  rewrite titleFromBody_first_line. split.
  - apply has_char_title_of_line, has_char_trim, has_char_hd_split. now left.
  - intros c H.
    apply has_char_title_of_line, has_char_trim, has_char_hd_split. right.
    now apply has_char_trim.
Qed.

Lemma titleFromBody_chars_witness :
  has_char "#" "Plain [link](http://x.y) title" = false
  /\ has_char "#" (titleFromBody "Plain [link](http://x.y) title") = false.
Proof.
  split; [reflexivity|].
  apply (proj2 (titleFromBody_chars "Plain [link](http://x.y) title")). reflexivity.
Defined.

(** ** The desktop menu bar *)

(** Induction on menu items, through their submenus. *)
Lemma MenuItem_nested_ind (P : MenuItem -> Prop) :
  (forall commandName label, P (mkMenuItem commandName label None)) ->
  (forall commandName label submenu,
      Forall P submenu -> P (mkMenuItem commandName label (Some submenu))) ->
  forall menuItem, P menuItem.
Proof.
  intros Hleaf Hsub. fix IH 1. intros [commandName label [submenu|]].
  - apply Hsub. induction submenu as [|x l IHl]; constructor; [apply IH|exact IHl].
  - apply Hleaf.
Qed.

Lemma pluginMenuItemsCommandNames_app (a b : list MenuItem) :
  pluginMenuItemsCommandNames (a ++ b)
  = pluginMenuItemsCommandNames a ++ pluginMenuItemsCommandNames b.
Proof. unfold pluginMenuItemsCommandNames. apply flat_map_app. Qed.

Section PluginMenuTreeFacts.
Context {A : Type}.
Variable commandToMenuItem : option string -> Outcome A.

(** For one item: every command name it contributes has its entry among
  the items of the template built for it. *)
Lemma createPluginMenuTree_item_names (menuItem : MenuItem) :
forall t,
  createPluginMenuTree_item commandToMenuItem menuItem = Ok t ->
  forall name,
    In name (pluginMenuItemsCommandNames_item menuItem) ->
    name <> EmptyString
    /\ exists entry, commandToMenuItem (Some name) = Ok entry /\ In entry (template_items t).
Proof.
induction menuItem as [commandName label|commandName label submenu IH]
  using MenuItem_nested_ind; intros t Ht name Hin.
- cbn [createPluginMenuTree_item pluginMenuItemsCommandNames_item] in *.
  destruct commandName as [[|c s]|]; cbn [truthy] in Hin; try destruct Hin.
  + cbn [default from_option id] in H. subst name.
    destruct (commandToMenuItem (Some (String c s))) as [entry|e] eqn:E; [|discriminate].
    injection Ht as <-. split; [discriminate|]. exists entry. cbn. auto.
  + destruct H.
- cbn [createPluginMenuTree_item pluginMenuItemsCommandNames_item] in *.
  destruct (for_each _ submenu) as [entries|e] eqn:E; [|discriminate].
  injection Ht as <-. cbn [template_items].
  revert entries E Hin. induction IH as [|x l Hx Hl IHl]; intros entries E Hin.
  + destruct Hin.
  + cbn [for_each] in E.
    destruct (createPluginMenuTree_item commandToMenuItem x) as [tx|] eqn:Ex; [|discriminate].
    destruct (for_each _ l) as [tl|] eqn:El; [|discriminate].
    injection E as <-. cbn [flat_map] in Hin |- *.
    apply in_app_iff in Hin as [Hin|Hin].
    * destruct (Hx tx eq_refl name Hin) as (Hne & entry & He & Hentry).
      split; [exact Hne|]. exists entry. split; [exact He|].
      apply in_or_app. now left.
    * destruct (IHl tl eq_refl Hin) as (Hne & entry & He & Hentry).
      split; [exact Hne|]. exists entry. split; [exact He|].
      apply in_or_app. now right.
Qed.

(** X11. When [createPluginMenuTree] returns a template for some menu
  items, every command name that [pluginMenuItemsCommandNames] reports for
  these items is not empty and has the entry that [commandToMenuItem] makes
  for it among the entries of the template; the name and label of an item
  with a submenu play no part. *)
Theorem createPluginMenuTree_names (label : option string) (menuItems : list MenuItem)
  (t : MenuTemplate A) :
createPluginMenuTree commandToMenuItem label menuItems = Ok t ->
forall name,
  In name (pluginMenuItemsCommandNames menuItems) ->
  name <> EmptyString
  /\ exists entry, commandToMenuItem (Some name) = Ok entry /\ In entry (template_items t).
Proof.
intros Ht name Hin.
apply (createPluginMenuTree_item_names (mkMenuItem None label (Some menuItems)) t).
- exact Ht.
- exact Hin.
Qed.
End PluginMenuTreeFacts.

Lemma createPluginMenuTree_names_witness :
  let items :=
    [ mkMenuItem (Some "plugin.export") (Some "Export") None;
      mkMenuItem (Some "ignored") (Some "More")
        (Some [ mkMenuItem (Some "plugin.sync") None None;
                mkMenuItem None (Some "no command") None ]) ] in
  let commandToMenuItem (c : option string) : Outcome string :=
    Ok (String.append "item:" (default EmptyString c)) in
  pluginMenuItemsCommandNames items = ["plugin.export"; "plugin.sync"]
  /\ exists t,
       createPluginMenuTree commandToMenuItem (Some "My plugin") items = Ok t
       /\ In "plugin.sync" (pluginMenuItemsCommandNames items)
       /\ In "item:plugin.sync" (template_items t).
Proof.
  cbv zeta. split; [reflexivity|]. eexists. split; [reflexivity|].
  split; [cbn; auto|].
  destruct (createPluginMenuTree_names
              (fun c => Ok (String.append "item:" (default EmptyString c)))
              (Some "My plugin")
              [ mkMenuItem (Some "plugin.export") (Some "Export") None;
                mkMenuItem (Some "ignored") (Some "More")
                  (Some [ mkMenuItem (Some "plugin.sync") None None;
                          mkMenuItem None (Some "no command") None ]) ]
              _ eq_refl "plugin.sync" ltac:(cbn; auto))
    as (_ & entry & [= <-] & Hin).
  exact Hin.
Defined.

Lemma cleanUpSeparators_filter (items : list TemplateEntry) :
  cleanUpSeparators items = List.filter (fun e => negb (hidden_separator e)) items.
Proof.
  induction items as [|e l IH]; [reflexivity|]. cbn [cleanUpSeparators List.filter].
  destruct (hidden_separator e); cbn [negb]; now rewrite IH.
Qed.

(** X12. [cleanUpSeparators] removes the separators that have a falsy
    [visible] property and nothing else, keeping the order and the
    repetitions of the other entries: its result is the list of the entries
    that are not such separators, in the order given.  So an entry is in the
    result exactly when it was given and is not such a separator; a
    separator without a [visible] key stays; a second pass changes
    nothing. *)
Theorem cleanUpSeparators_spec (items : list TemplateEntry) :
  cleanUpSeparators items
  = List.filter (fun entry => negb (hidden_separator entry)) items
  /\ (forall entry,
      In entry (cleanUpSeparators items)
      <-> In entry items /\ hidden_separator entry = false)
  /\ (forall entry,
        In entry items -> entry_visible entry = None ->
        In entry (cleanUpSeparators items))
  /\ cleanUpSeparators (cleanUpSeparators items) = cleanUpSeparators items
  /\ length (cleanUpSeparators items) <= length items.
Proof.
  rewrite !cleanUpSeparators_filter. split; [reflexivity|]. split; [|split; [|split]].
  - intros entry. rewrite filter_In, negb_true_iff. reflexivity.
  - intros entry Hin Hv. apply filter_In. split; [exact Hin|].
    unfold hidden_separator. now rewrite Hv.
  - induction items as [|e l IH]; [reflexivity|]. cbn [List.filter].
    destruct (hidden_separator e) eqn:E; cbn [negb]; [exact IH|].
    cbn [List.filter]. rewrite E. cbn [negb]. now rewrite IH.
  - apply List.filter_length_le.
Qed.

Lemma cleanUpSeparators_spec_witness :
  let hidden := {| entry_label := EmptyString; entry_type := Some "separator";
                   entry_visible := Some false |} in
  let plain := {| entry_label := EmptyString; entry_type := Some "separator";
                  entry_visible := None |} in
  In plain [hidden; plain] /\ entry_visible plain = None
  /\ In plain (cleanUpSeparators [hidden; plain])
  /\ cleanUpSeparators [hidden; plain] = [plain].
Proof.
  cbv zeta. split; [cbn; auto|]. split; [reflexivity|]. split; [|reflexivity].
  apply (proj1 (proj2 (proj2 (cleanUpSeparators_spec _)))); [cbn; auto|reflexivity].
Defined.

(** ** createMarkdownTable *)

Lemma count_char_append (c : ascii) (a b : string) :
  count_char c (String.append a b) = count_char c a + count_char c b.
Proof.
  induction a as [|x a IH]; [reflexivity|].
  rewrite append_String. cbn [count_char]. rewrite IH. lia.
Qed.

Lemma count_char_has_char (c : ascii) (s : string) :
  has_char c s = false -> count_char c s = 0.
Proof.
  induction s as [|a s IH]; [reflexivity|]. cbn [has_char count_char].
  intros H. apply orb_false_iff in H as [-> H]. now rewrite IH.
Qed.

Lemma join_cons (sep x y : string) (l : list string) :
  join sep (x :: y :: l) = String.append x (String.append sep (join sep (y :: l))).
Proof. reflexivity. Qed.

(** Joining texts that are free of [c] with a separator free of [c]. *)
Lemma count_char_join_none (c : ascii) (sep : string) (l : list string) :
  count_char c sep = 0 ->
  Forall (fun x => count_char c x = 0) l ->
  count_char c (join sep l) = 0.
Proof.
  intros Hsep Hl. induction Hl as [|x l Hx Hl IH]; [reflexivity|].
  destruct l as [|y l]; [exact Hx|].
  rewrite join_cons, !count_char_append, Hx, Hsep, IH. reflexivity.
Qed.

(** Joining texts that are free of [c] with [c] itself. *)
Lemma count_char_join_sep (c : ascii) (x : string) (l : list string) :
  Forall (fun x => count_char c x = 0) (x :: l) ->
  count_char c (join (String c EmptyString) (x :: l)) = length l.
Proof.
  revert x. induction l as [|y l IH]; intros x Hl.
  - now inversion Hl.
  - inversion Hl as [|? ? Hx Hl']. subst.
    rewrite join_cons, !count_char_append, Hx, IH by exact Hl'.
    cbn [count_char length]. now rewrite Ascii.eqb_refl.
Qed.

Lemma for_each_Forall2 {A B} (f : A -> Outcome B) (l : list A) (ys : list B) :
  for_each f l = Ok ys -> Forall2 (fun x y => f x = Ok y) l ys.
Proof.
  revert ys. induction l as [|x l IH]; intros ys H; cbn [for_each] in H.
  - injection H as <-. constructor.
  - destruct (f x) as [y|e] eqn:Ex; [|discriminate].
    destruct (for_each f l) as [tl|e] eqn:El; [|discriminate].
    injection H as <-. constructor; [exact Ex|]. now apply IH.
Qed.

Lemma for_each_throws {A B} (f : A -> Outcome B) (l : list A) (x : A) (e : Error) :
  In x l -> f x = Throw e -> exists e', for_each f l = Throw e'.
Proof.
  intros Hin Hx. induction l as [|a l IH]; [destruct Hin|].
  cbn [for_each]. destruct Hin as [->|Hin].
  - rewrite Hx. now exists e.
  - destruct (f a) as [y|ea]; [|now exists ea].
    destruct (IH Hin) as [e' ->]. now exists e'.
Qed.

Lemma Ok_inj {A} (a b : A) : Ok a = Ok b -> a = b.
Proof. now intros [= ->]. Qed.

Lemma escapeTableCell_no_line_feed (text : string) :
  count_char "010" (escapeTableCell text) = 0.
Proof.
  apply count_char_has_char. rewrite escapeTableCell_subst.
  apply has_char_subst_other; [reflexivity|].
  now apply has_char_subst_same.
Qed.

(** X18. A table has one line for the labels, one for the divider and one
    for every row, whatever the cells hold: when the padding brings in no
    line feed and no label holds one, the markdown of a table of [n] rows
    holds exactly [n + 1] line feeds. *)
Theorem createMarkdownTable_lines (stringPadding : string -> string)
    (headers : list MarkdownTableHeader) (rows : list (gmap string string))
    (md : string) :
  (forall s, has_char "010" s = false -> has_char "010" (stringPadding s) = false) ->
  Forall (fun h => has_char "010" (header_label h) = false) headers ->
  createMarkdownTable stringPadding headers rows = Ok md ->
  count_char "010" md = S (length rows).
Proof.
  intros Hpad Hlabels. unfold createMarkdownTable. cbv zeta.
  destruct (for_each _ rows) as [rowsMd|e] eqn:Erows; [|discriminate].
  intros H. apply Ok_inj in H. subst md.
  apply for_each_Forall2 in Erows.
  assert (Hpad0 : forall s, count_char "010" s = 0 ->
                    count_char "010" (stringPadding s) = 0).
  { intros s Hs. apply count_char_has_char, Hpad.
    clear -Hs. induction s as [|a s IH]; [reflexivity|]. cbn [count_char has_char] in *.
    destruct (Ascii.eqb a "010"); [discriminate|]. now apply IH. }
  rewrite count_char_join_sep.
  - cbn [length]. f_equal. symmetry. exact (Forall2_length _ _ _ Erows).
  - constructor; [|constructor].
    + apply count_char_join_none; [reflexivity|].
      apply List.Forall_forall. intros x Hx. apply in_map_iff in Hx as (h & <- & Hh).
      apply Hpad0, count_char_has_char.
      exact (proj1 (List.Forall_forall _ _) Hlabels h Hh).
    + apply count_char_join_none; [reflexivity|].
      apply List.Forall_forall. intros x Hx. now apply in_map_iff in Hx as (h & <- & _).
    + clear -Erows Hpad0. induction Erows as [|row rowMd rows rowsMd Hrow _ IH];
        constructor; [|exact IH].
      destruct (for_each (table_cell stringPadding row) headers) as [cells|e] eqn:Ecells;
        [|discriminate].
      injection Hrow as <-. apply for_each_Forall2 in Ecells.
      apply count_char_join_none; [reflexivity|].
      clear -Ecells Hpad0. induction Ecells as [|h cell hs cells Hcell _ IH];
        constructor; [|exact IH].
      unfold table_cell in Hcell.
      destruct (match header_filter h with
                | Some filter => filter (row !! header_name h)
                | None => row !! header_name h
                end) as [text|]; [|discriminate].
      injection Hcell as <-. apply Hpad0, escapeTableCell_no_line_feed.
Qed.

Lemma createMarkdownTable_lines_witness :
  count_char "010"
    (String.append "Name | Notes"
       (String "010" (String.append "--- | ---" (String "010" "a\|b | one<br/>two"))))
  = 2.
Proof.
  apply (createMarkdownTable_lines (fun s => s)
           [mkMarkdownTableHeader "name" "Name" None;
            mkMarkdownTableHeader "notes" "Notes" None]
           [{[ "name" := "a|b"; "notes" := String.append "one" (String "010" "two") ]}]).
  - intros s Hs. exact Hs.
  - repeat constructor.
  - vm_compute. reflexivity.
Defined.

(** X19. A row that has no value for a header without a filter makes
    [createMarkdownTable] throw: the cell is not left empty. *)
Theorem createMarkdownTable_missing_value (stringPadding : string -> string)
    (headers : list MarkdownTableHeader) (rows : list (gmap string string))
    (h : MarkdownTableHeader) (row : gmap string string) :
  In h headers -> In row rows ->
  header_filter h = None -> row !! header_name h = None ->
  exists e, createMarkdownTable stringPadding headers rows = Throw e.
Proof.
  intros Hh Hrow Hfilter Hvalue. unfold createMarkdownTable. cbv zeta.
  assert (Hcell : table_cell stringPadding row h = Throw (ErrorOther "TypeError")).
  { unfold table_cell. now rewrite Hfilter, Hvalue. }
  destruct (for_each_throws _ _ _ _ Hh Hcell) as [e He].
  destruct (for_each_throws
              (fun row => match for_each (table_cell stringPadding row) headers with
                          | Ok rowMd => Ok (join " | " rowMd)
                          | Throw e => Throw e
                          end) rows row e Hrow) as [e' He'].
  { now rewrite He. }
  rewrite He'. now exists e'.
Qed.

Lemma createMarkdownTable_missing_value_witness :
  exists e,
    createMarkdownTable (fun s => s)
      [mkMarkdownTableHeader "name" "Name" None;
       mkMarkdownTableHeader "notes" "Notes" None]
      [{[ "name" := "a"; "notes" := "b" ]}; {[ "name" := "c" ]}]
    = Throw e.
Proof.
  apply (createMarkdownTable_missing_value (fun s => s) _ _
           (mkMarkdownTableHeader "notes" "Notes" None) {[ "name" := "c" ]}).
  - cbn. auto.
  - cbn. auto.
  - reflexivity.
  - vm_compute. reflexivity.
Defined.

(** ** extractFileUrls *)

(** Induction on tokens, through their children. *)
Lemma Token_nested_ind (P : Token -> Prop) :
  (forall type attrs, P (mkToken type attrs None)) ->
  (forall type attrs children,
      Forall P children -> P (mkToken type attrs (Some children))) ->
  forall token, P token.
Proof.
  intros Hleaf Hsub. fix IH 1. intros [type attrs [children|]].
  - apply Hsub. induction children as [|x l IHl]; constructor; [apply IH|exact IHl].
  - apply Hleaf.
Qed.

(** What a token pushes itself: nothing but what it pushes when links count
    too. *)
Lemma own_urls_sublist (type : string) (attrs : option (list (list string)))
    (files : list string) :
  (if url_token false type then
     match attrs with
     | Some attrs => Ok (attr_urls attrs)
     | None => Throw (ErrorOther "TypeError")
     end
   else Ok []) = Ok files ->
  exists images,
    (if url_token true type then
       match attrs with
       | Some attrs => Ok (attr_urls attrs)
       | None => Throw (ErrorOther "TypeError")
       end
     else Ok []) = Ok images
    /\ sublist images files.
Proof.
  unfold url_token. cbn [andb orb negb].
  rewrite orb_false_r. destruct (String.eqb type "image"); cbn [orb].
  - intros H. exists files. split; [exact H|reflexivity].
  - intros _. exists []. split; [reflexivity|apply sublist_nil_l].
Qed.

Lemma searchUrls_list_sublist (tokens : list Token) :
  Forall (fun token => forall files,
            searchUrls_token false token = Ok files ->
            exists images, searchUrls_token true token = Ok images
                           /\ sublist images files) tokens ->
  forall files,
    concat_outcomes (for_each (searchUrls_token false) tokens) = Ok files ->
    exists images,
      concat_outcomes (for_each (searchUrls_token true) tokens) = Ok images
      /\ sublist images files.
Proof.
  induction 1 as [|token tokens Htoken _ IH]; intros files H.
  - cbn in H. injection H as <-. exists []. split; reflexivity.
  - cbn [for_each] in H |- *.
    destruct (searchUrls_token false token) as [f1|e] eqn:E1; [|discriminate].
    destruct (for_each (searchUrls_token false) tokens) as [fs|e] eqn:E2; [|discriminate].
    cbn [concat_outcomes concat] in H. injection H as <-.
    destruct (Htoken f1 eq_refl) as (i1 & -> & Hi1).
    destruct (IH (concat fs) eq_refl) as (irest & His & Hsub).
    destruct (for_each (searchUrls_token true) tokens) as [ims|e]; [|discriminate].
    cbn [concat_outcomes] in His |- *. injection His as <-.
    exists (i1 ++ concat ims). split; [reflexivity|]. now apply sublist_app.
Qed.

Lemma searchUrls_token_sublist (token : Token) :
  forall files,
    searchUrls_token false token = Ok files ->
    exists images, searchUrls_token true token = Ok images /\ sublist images files.
Proof.
  induction token as [type attrs|type attrs children IH] using Token_nested_ind;
    intros files H; cbn [searchUrls_token] in H |- *.
  - destruct (if url_token false type then _ else _) as [own|e] eqn:Eown; [|discriminate].
    injection H as <-.
    destruct (own_urls_sublist _ _ _ Eown) as (images & -> & Hsub).
    now exists images.
  - destruct (if url_token false type then _ else _) as [own|e] eqn:Eown; [|discriminate].
    destruct (own_urls_sublist _ _ _ Eown) as (images & -> & Hsub).
    destruct children as [|child rest].
    + injection H as <-. now exists images.
    + destruct (concat_outcomes (for_each (searchUrls_token false) (child :: rest)))
        as [below|e] eqn:Ebelow; [|discriminate].
      injection H as <-.
      destruct (searchUrls_list_sublist _ IH _ Ebelow) as (ibelow & -> & Hbelow).
      exists (images ++ ibelow). split; [reflexivity|]. now apply sublist_app.
Qed.

(** X20. Whenever [extractFileUrls] returns the URLs of the images and
    links of a text, [extractImageUrls] returns too, and what it returns is
    a sublist of them: the same URLs in the same order, the links left
    out. *)
Theorem extractImageUrls_sublist (parse : string -> list Token) (md : string)
    (files : list string) :
  extractFileUrls parse md false = Ok files ->
  exists images,
    extractImageUrls parse md = Ok images /\ sublist images files.
Proof.
  unfold extractImageUrls, extractFileUrls, searchUrls.
  apply searchUrls_list_sublist.
  apply List.Forall_forall. intros token _. apply searchUrls_token_sublist.
Qed.

Lemma extractImageUrls_sublist_witness :
  exists images,
    extractImageUrls
      (fun _ =>
         [mkToken "paragraph_open" None None;
          mkToken "inline" None
            (Some [mkToken "link_open" (Some [["href"; "https://joplinapp.org"]]) None;
                   mkToken "text" None None;
                   mkToken "link_close" None None;
                   mkToken "image" (Some [["src"; ":/0123"]; ["alt"; EmptyString]]) None]);
          mkToken "paragraph_close" None None])
      "[site](https://joplinapp.org) ![](:/0123)"
    = Ok images
    /\ sublist images ["https://joplinapp.org"; ":/0123"].
Proof.
  apply extractImageUrls_sublist. vm_compute. reflexivity.
Defined.

(** ** unescapeLinkUrl leaves no escape sequence *)

Lemma includes_append_r (q a b : string) :
  includes q b = true -> includes q (String.append a b) = true.
Proof.
  intros H. induction a as [|x a IH]; [exact H|].
  rewrite append_String. cbn [includes]. rewrite IH. apply orb_true_r.
Qed.

Lemma includes_cons (q : string) (a : ascii) (s : string) :
  includes q (String a s) = startsWith q (String a s) || includes q s.
Proof. reflexivity. Qed.

Lemma startsWith_cons (a b : ascii) (p s : string) :
  startsWith (String a p) (String b s) = Ascii.eqb a b && startsWith p s.
Proof. reflexivity. Qed.

Section UnescapeComplete.
Variables p1 p2 p3 c : ascii.

(** Where the result of replacing ["p1 p2 p3"] by [c] starts with three
    code units other than [c], the string started with them. *)
Lemma startsWith_replaceAll_three (q1 q2 q3 : ascii) (s : string) :
  c <> q1 -> c <> q2 -> c <> q3 ->
  startsWith (three_units q1 q2 q3)
    (replaceAll (literal (three_units p1 p2 p3) (String c EmptyString)) s) = true ->
  startsWith (three_units q1 q2 q3) s = true
  /\ startsWith (three_units p1 p2 p3) s = false.
Proof.
  intros H1 H2 H3.
  assert (E1 : Ascii.eqb q1 c = false) by (apply Ascii.eqb_neq; congruence).
  assert (E2 : Ascii.eqb q2 c = false) by (apply Ascii.eqb_neq; congruence).
  assert (E3 : Ascii.eqb q3 c = false) by (apply Ascii.eqb_neq; congruence).
  assert (Hhit : forall n p t, startsWith (three_units p1 p2 p3) t = true ->
             startsWith (String n p)
               (replaceAll (literal (three_units p1 p2 p3) (String c EmptyString)) t)
             = true ->
             Ascii.eqb n c = true).
  { intros n p t Ht. apply startsWith_split in Ht as [rest ->].
    rewrite replaceAll_three_hit, append_String, append_Empty.
    rewrite startsWith_cons. intros H. now apply andb_true_iff in H as [H _]. }
  destruct (startsWith (three_units p1 p2 p3) s) eqn:Hp.
  { apply startsWith_split in Hp as [rest ->].
    rewrite replaceAll_three_hit, append_String, append_Empty.
    unfold three_units at 1. cbn [startsWith]. now rewrite E1. }
  destruct s as [|a s]; [discriminate|].
  rewrite replaceAll_literal_miss by exact Hp.
  unfold three_units at 1 3. rewrite !startsWith_cons.
  intros H. apply andb_true_iff in H as [Ha H]. rewrite Ha. cbn [andb].
  split; [|reflexivity].
  destruct (startsWith (three_units p1 p2 p3) s) eqn:Hp'.
  { apply Hhit in H; [congruence | exact Hp']. }
  destruct s as [|b s]; [discriminate|].
  rewrite replaceAll_literal_miss in H by exact Hp'.
  rewrite !startsWith_cons in H |- *.
  apply andb_true_iff in H as [Hb H]. rewrite Hb. cbn [andb].
  destruct (startsWith (three_units p1 p2 p3) s) eqn:Hp''.
  { apply Hhit in H; [congruence | exact Hp'']. }
  destruct s as [|e s]; [discriminate|].
  rewrite replaceAll_literal_miss in H by exact Hp''.
  rewrite !startsWith_cons in H |- *. exact H.
Qed.

(** A replacement by [c] brings in no occurrence of three code units
    other than [c]. *)
Lemma includes_replaceAll_three (q1 q2 q3 : ascii) (s : string) :
  c <> q1 -> c <> q2 -> c <> q3 ->
  includes (three_units q1 q2 q3)
    (replaceAll (literal (three_units p1 p2 p3) (String c EmptyString)) s) = true ->
  includes (three_units q1 q2 q3) s = true.
Proof.
  intros H1 H2 H3.
  induction s as [s IH] using string_length_ind. intros H.
  destruct (startsWith (three_units p1 p2 p3) s) eqn:Hp.
  - apply startsWith_split in Hp as [rest ->].
    rewrite replaceAll_three_hit, append_String, append_Empty in H.
    rewrite includes_cons in H. apply orb_true_iff in H as [H|H].
    + unfold three_units in H. cbn [startsWith] in H.
      apply andb_true_iff in H as [H _]. apply Ascii.eqb_eq in H. congruence.
    + apply includes_append_r, IH; [|exact H].
      rewrite length_append. cbn. lia.
  - destruct s as [|a s].
    + exact H.
    + pose proof (startsWith_replaceAll_three q1 q2 q3 (String a s) H1 H2 H3) as HA.
      rewrite replaceAll_literal_miss in H, HA by exact Hp.
      rewrite includes_cons in H |- *. apply orb_true_iff in H as [H|H].
      * destruct (HA H) as [-> _]. reflexivity.
      * rewrite (IH s); [apply orb_true_r| cbn; lia | exact H].
Qed.

(** After the replacement, no occurrence of ["p1 p2 p3"] is left. *)
Lemma includes_replaceAll_same (s : string) :
  c <> p1 -> c <> p2 -> c <> p3 ->
  includes (three_units p1 p2 p3)
    (replaceAll (literal (three_units p1 p2 p3) (String c EmptyString)) s) = false.
Proof.
  intros H1 H2 H3.
  induction s as [s IH] using string_length_ind.
  destruct (startsWith (three_units p1 p2 p3) s) eqn:Hp.
  - apply startsWith_split in Hp as [rest ->].
    rewrite replaceAll_three_hit, append_String, append_Empty.
    rewrite includes_cons, IH by (rewrite length_append; cbn; lia).
    unfold three_units. cbn [startsWith].
    assert (E1 : Ascii.eqb p1 c = false) by (apply Ascii.eqb_neq; congruence).
    now rewrite E1.
  - destruct s as [|a s]; [reflexivity|].
    pose proof (startsWith_replaceAll_three p1 p2 p3 (String a s) H1 H2 H3) as HA.
    rewrite replaceAll_literal_miss in HA |- * by exact Hp.
    rewrite includes_cons, IH by (cbn; lia).
    destruct (startsWith (three_units p1 p2 p3)
                (String a (replaceAll (literal (three_units p1 p2 p3) (String c EmptyString)) s)))
      eqn:E; [|reflexivity].
    destruct (HA eq_refl) as [HB _]. congruence.
Qed.

(** Without an occurrence the replacement changes nothing. *)
Lemma replaceAll_three_none (rep s : string) :
  includes (three_units p1 p2 p3) s = false ->
  replaceAll (literal (three_units p1 p2 p3) rep) s = s.
Proof.
  induction s as [|a s IH]; [reflexivity|].
  rewrite includes_cons. intros H. apply orb_false_iff in H as [Hp H].
  now rewrite replaceAll_literal_miss, IH.
Qed.
End UnescapeComplete.

Lemma not_true_false (b : bool) : (b = true -> False) -> b = false.
Proof. destruct b; [intros H; destruct H; reflexivity | reflexivity]. Qed.

(** X17. The result of [unescapeLinkUrl] holds none of the escape sequences
    "%28", "%29" and "%20", although the three replacements run one after
    the other; so [unescapeLinkUrl] changes nothing when it is applied a
    second time. *)
Theorem unescapeLinkUrl_complete (u : string) :
  includes "%28" (unescapeLinkUrl u) = false
  /\ includes "%29" (unescapeLinkUrl u) = false
  /\ includes "%20" (unescapeLinkUrl u) = false
  /\ unescapeLinkUrl (unescapeLinkUrl u) = unescapeLinkUrl u.
Proof.
  assert (H : includes "%28" (unescapeLinkUrl u) = false
              /\ includes "%29" (unescapeLinkUrl u) = false
              /\ includes "%20" (unescapeLinkUrl u) = false).
  { unfold unescapeLinkUrl.
    change "%28" with (three_units "%" "2" "8").
    change "%29" with (three_units "%" "2" "9").
    change "%20" with (three_units "%" "2" "0").
    split; [|split].
    - apply not_true_false. intros H.
      apply includes_replaceAll_three in H; [|discriminate..].
      apply includes_replaceAll_three in H; [|discriminate..].
      now rewrite includes_replaceAll_same in H by discriminate.
    - apply not_true_false. intros H.
      apply includes_replaceAll_three in H; [|discriminate..].
      now rewrite includes_replaceAll_same in H by discriminate.
    - now apply includes_replaceAll_same. }
  destruct H as (H28 & H29 & H20). repeat split; try assumption.
  unfold unescapeLinkUrl at 1.
  change "%28" with (three_units "%" "2" "8") in H28 |- *.
  change "%29" with (three_units "%" "2" "9") in H29 |- *.
  change "%20" with (three_units "%" "2" "0") in H20 |- *.
  now rewrite (replaceAll_three_none _ _ _ _ _ H28),
    (replaceAll_three_none _ _ _ _ _ H29), (replaceAll_three_none _ _ _ _ _ H20).
Qed.

(** ** Traces *)

(** All the ways of cutting a trace that is known call by call. *)
Ltac trace_cases H :=
  repeat match type of H with
    | [] = ?t1 ++ _ :: _ => destruct t1; discriminate H
    | _ :: _ = ?t1 ++ _ :: _ =>
        destruct t1 as [|? t1]; cbn [app] in H;
        [injection H as <- <- | injection H as <- H]
    end.

Ltac in_cases H :=
  cbn [In] in H;
  repeat match type of H with
    | _ \/ _ => destruct H as [H|H]
    | False => destruct H
    end.

(** ** The models of the specification *)

Lemma find_same_owner_name (userId : Uuid) (name : string) (l : list Item) (it : Item) :
  List.find (same_owner_name userId name) l = Some it ->
  In it l /\ owner_id it = userId /\ item_name it = name.
Proof.
  intros H. apply find_some in H as [Hin H]. unfold same_owner_name in H.
  apply andb_true_iff in H as [Ho Hn].
  apply String.eqb_eq in Ho, Hn. auto.
Qed.

Lemma find_same_owner_name_none (userId : Uuid) (name : string) (l : list Item) :
  List.find (same_owner_name userId name) l = None ->
  forall it, In it l -> owner_id it = userId -> item_name it <> name.
Proof.
  intros H it Hin Ho Hn. apply (find_none _ _ H) in Hin.
  unfold same_owner_name in Hin. rewrite Ho, Hn, !String.eqb_refl in Hin. discriminate.
Qed.

(** With distinct identifiers, the lookup by identifier finds the item. *)
Lemma find_has_id (l : list Item) (it : Item) :
  List.NoDup (map item_id l) -> In it l -> List.find (has_id (item_id it)) l = Some it.
Proof.
  induction l as [|x l IH]; intros Hnd Hin; [destruct Hin|].
  cbn [map] in Hnd. apply List.NoDup_cons_iff in Hnd as [Hx Hnd].
  cbn [List.find]. unfold has_id at 1.
  destruct (String.eqb (item_id x) (item_id it)) eqn:E.
  - apply String.eqb_eq in E. destruct Hin as [->|Hin]; [reflexivity|].
    exfalso. apply Hx. rewrite E. now apply in_map.
  - destruct Hin as [->|Hin]; [now rewrite String.eqb_refl in E|]. now apply IH.
Qed.

Lemma In_insert_sorted (cmp : Item -> Item -> comparison) (x y : Item) (l : list Item) :
  In y (insert_sorted cmp x l) -> y = x \/ In y l.
Proof.
  induction l as [|z l IH]; cbn [insert_sorted].
  - intros [<-|[]]. now left.
  - destruct (cmp x z); cbn [In]; intros H.
    + destruct H as [<-|H]; auto.
    + destruct H as [<-|H]; auto.
    + destruct H as [<-|H]; [auto|]. destruct (IH H); auto.
Qed.

Lemma In_sort_items (cmp : Item -> Item -> comparison) (y : Item) (l : list Item) :
  In y (sort_items cmp l) -> In y l.
Proof.
  induction l as [|x l IH]; cbn [sort_items fold_right]; [auto|].
  intros H. apply In_insert_sorted in H as [->|H]; [now left|right; now apply IH].
Qed.

Lemma In_firstn {A} (n : nat) (l : list A) (x : A) : In x (firstn n l) -> In x l.
Proof.
  revert l. induction n as [|n IH]; intros [|y l]; cbn [firstn In]; try tauto.
  intros [->|H]; auto.
Qed.

Lemma In_skipn {A} (n : nat) (l : list A) (x : A) : In x (skipn n l) -> In x l.
Proof.
  revert l. induction n as [|n IH]; intros [|y l]; cbn [skipn In]; try tauto.
  intros H; auto.
Qed.

(** ** The routes: resolution and deletion *)

Section RouteFacts.
Variable formParse :
  Request -> gmap string Buffer -> Outcome FormBody * gmap string Buffer.
Variable requestDeltaPagination : gmap string string -> ChangePagination.
Variable requestPagination : gmap string string -> Pagination.
Variable respondWithItemContent : Response -> Item -> Buffer -> Response.

(** What [itemFromPath] does, by the answer of the model. *)
Lemma itemFromPath_run (userId : Uuid) (m : ItemModel) (path : SubPath) (w : World) :
  itemFromPath userId m path true w =
  let name := im_pathToName m (path_id path) in
  match im_loadByName m userId name (db w) with
  | Ok (Some it) => (Ok (Some it), w, [EvLoadByName userId name])
  | Ok None =>
      (Throw (ErrorNotFound (String.append "Not found: " (path_id path))), w,
       [EvLoadByName userId name])
  | Throw e => (Throw e, w, [EvLoadByName userId name])
  end.
Proof.
  unfold itemFromPath, loadByName, pathToName, bind, db_read.
  destruct (im_loadByName m userId _ (db w)) as [[it|]|e]; reflexivity.
Qed.

(** With [mustExists], a lookup that returns has found an item. *)
Lemma itemFromPath_found (userId : Uuid) (m : ItemModel) (path : SubPath) (w : World) :
  outcome_of (itemFromPath userId m path true w) <> Ok None.
Proof.
  rewrite itemFromPath_run. cbv zeta.
  destruct (im_loadByName m userId _ (db w)) as [[it|]|e]; discriminate.
Qed.

(** What the body of the delete route does for a path other than the
    root. *)
Lemma api_items_del_body_item (path : SubPath) (ctx : AppContext) (w : World) :
  is_root_path path = false ->
  api_items_del_body path ctx w =
  let m := item (models ctx) in
  let uid := user_id (owner ctx) in
  let name := im_pathToName m (path_id path) in
  match im_loadByName m uid name (db w) with
  | Ok (Some it) =>
      match im_checkIfAllowed m (owner ctx) AclDelete it (db w) with
      | Ok _ =>
          (fst (im_deleteForUser m uid it (db w)),
           {| db := snd (im_deleteForUser m uid it (db w)); fs := fs w |},
           [EvLoadByName uid name; EvCheckIfAllowed (owner ctx) AclDelete it;
            EvDeleteForUser uid it])
      | Throw e =>
          (Throw e, w, [EvLoadByName uid name; EvCheckIfAllowed (owner ctx) AclDelete it])
      end
  | Ok None =>
      (Throw (ErrorNotFound (String.append "Not found: " (path_id path))), w,
       [EvLoadByName uid name])
  | Throw e => (Throw e, w, [EvLoadByName uid name])
  end.
Proof.
  intros Hroot. unfold api_items_del_body. rewrite Hroot.
  unfold bind at 1. rewrite itemFromPath_run. cbv zeta.
  destruct (im_loadByName _ _ _ (db w)) as [[it|]|e]; try reflexivity.
  unfold the_item, checkIfAllowed, deleteForUser, bind, ret, db_read, db_write.
  destruct (im_checkIfAllowed _ _ _ it (db w)) as [[]|e]; [|reflexivity].
  destruct (im_deleteForUser _ _ it (db w)) as [r d]. reflexivity.
Qed.

(** The [catch] of the delete route. *)
Lemma api_items_del_catch (path : SubPath) (ctx : AppContext) (w : World) :
  api_items_del path ctx w =
  match api_items_del_body path ctx w with
  | (Throw e, w1, t1) =>
      if instanceof_ErrorNotFound e then (Ok tt, w1, t1) else (Throw e, w1, t1)
  | done => done
  end.
Proof.
  unfold api_items_del, try_catch.
  destruct (api_items_del_body path ctx w) as [[[u|e] w1] t1]; [reflexivity|].
  destruct (instanceof_ErrorNotFound e); unfold ret, throw; now rewrite app_nil_r.
Qed.

(** What the body of the delete route does for the root. *)
Lemma api_items_del_body_root (path : SubPath) (ctx : AppContext) (w : World) :
  is_root_path path = true ->
  api_items_del_body path ctx w =
  if String.eqb (env ctx) "dev" then
    (fst (im_deleteAll (item (models ctx)) (user_id (owner ctx)) (db w)),
     {| db := snd (im_deleteAll (item (models ctx)) (user_id (owner ctx)) (db w));
        fs := fs w |},
     [EvDeleteAll (user_id (owner ctx))])
  else (Throw (ErrorMethodNotAllowed "Deleting the root is not allowed"), w, []).
Proof.
  intros Hroot. unfold api_items_del_body. rewrite Hroot.
  destruct (String.eqb (env ctx) "dev"); [|reflexivity].
  unfold deleteAll, db_write. cbn [negb].
  destruct (im_deleteAll _ _ (db w)) as [r d]. reflexivity.
Qed.

(** C8. The delta route ignores the [:id] segment: for a fixed tenant
    and query, two requests that differ in the path only call
    [change().delta] with the same arguments, the tenant and the
    pagination read from the query, and give the same response. *)
Theorem api_items_delta_get_ignores_path (path1 path2 : SubPath) (ctx : AppContext)
    (w : World) :
  api_items_delta_get requestDeltaPagination path1 ctx w
  = api_items_delta_get requestDeltaPagination path2 ctx w
  /\ trace_of (api_items_delta_get requestDeltaPagination path1 ctx w)
     = [EvDelta (user_id (owner ctx)) (requestDeltaPagination (query ctx))]
  /\ outcome_of (api_items_delta_get requestDeltaPagination path1 ctx w)
     = cm_delta (change (models ctx)) (user_id (owner ctx))
         (requestDeltaPagination (query ctx)) (db w).
Proof. repeat split. Qed.

(** C6. A delete request for a path other than the root that resolves to
    no item of the tenant completes as a no-op: the NotFound of the
    resolution is swallowed, the handler returns, the world is unchanged
    and no model call other than the lookup is made.  Any NotFound of the
    body is swallowed; every other error is thrown again. *)
Theorem api_items_del_missing_item (path : SubPath) (ctx : AppContext) (w : World) :
  (is_root_path path = false ->
   im_loadByName (item (models ctx)) (user_id (owner ctx))
     (im_pathToName (item (models ctx)) (path_id path)) (db w) = Ok None ->
   outcome_of (api_items_del_body path ctx w)
     = Throw (ErrorNotFound (String.append "Not found: " (path_id path)))
   /\ api_items_del path ctx w
      = (Ok tt, w,
         [EvLoadByName (user_id (owner ctx))
            (im_pathToName (item (models ctx)) (path_id path))]))
  /\ (forall e,
        outcome_of (api_items_del_body path ctx w) = Throw e ->
        instanceof_ErrorNotFound e = false ->
        api_items_del path ctx w = api_items_del_body path ctx w)
  /\ (forall e,
        outcome_of (api_items_del_body path ctx w) = Throw e ->
        instanceof_ErrorNotFound e = true ->
        outcome_of (api_items_del path ctx w) = Ok tt).
Proof.
  split; [|split].
  - intros Hroot Hmiss.
    rewrite api_items_del_catch, (api_items_del_body_item _ _ _ Hroot).
    cbv zeta. rewrite Hmiss. split; reflexivity.
  - intros e He Hnf. rewrite api_items_del_catch.
    destruct (api_items_del_body path ctx w) as [[[u|e'] w1] t1]; [reflexivity|].
    unfold outcome_of in He. cbn in He. injection He as ->. now rewrite Hnf.
  - intros e He Hnf. rewrite api_items_del_catch.
    destruct (api_items_del_body path ctx w) as [[[u|e'] w1] t1]; [discriminate|].
    unfold outcome_of in He. cbn in He. injection He as ->. now rewrite Hnf.
Qed.

(** Appending change records leaves the items alone. *)
Lemma items_append_changes (type : ChangeType) (l : list Item) (d : Db) :
  items (fold_left (fun d' it => append_change it type d') l d) = items d.
Proof.
  revert d. induction l as [|x l IH]; intros d; [reflexivity|].
  cbn [fold_left]. now rewrite IH.
Qed.

Lemma items_remove_items (doomed : Item -> bool) (d : Db) :
  items (remove_items doomed d) = List.filter (fun it => negb (doomed it)) (items d).
Proof. unfold remove_items. now rewrite items_append_changes. Qed.

(** C3. A delete request whose path id is 'root' or 'root:/:' fails with
    MethodNotAllowed, and changes nothing, whenever the environment is
    not 'dev' (production in particular); in 'dev' it succeeds by calling
    [deleteAll] for the calling tenant, which leaves no item of the tenant
    and keeps all others; for any other path id [deleteAll] is not
    called. *)
Theorem api_items_del_root (path : SubPath) (ctx : AppContext) (w : World) :
  (is_root_path path = true -> env ctx <> "dev" ->
   api_items_del path ctx w
   = (Throw (ErrorMethodNotAllowed "Deleting the root is not allowed"), w, []))
  /\ (is_root_path path = true -> env ctx = "dev" ->
      trace_of (api_items_del path ctx w) = [EvDeleteAll (user_id (owner ctx))]
      /\ fs (world_of (api_items_del path ctx w)) = fs w
      /\ db (world_of (api_items_del path ctx w))
         = snd (im_deleteAll (item (models ctx)) (user_id (owner ctx)) (db w))
      /\ (item (models ctx) = spec_ItemModel ->
          outcome_of (api_items_del path ctx w) = Ok tt
          /\ items (db (world_of (api_items_del path ctx w)))
             = List.filter (fun it => negb (String.eqb (owner_id it) (user_id (owner ctx))))
                 (items (db w))
          /\ forall it, In it (items (db (world_of (api_items_del path ctx w)))) ->
                        owner_id it <> user_id (owner ctx)))
  /\ (is_root_path path = false ->
      forall userId, ~ In (EvDeleteAll userId) (trace_of (api_items_del path ctx w))).
Proof.
  split; [|split].
  - intros Hroot Henv. apply String.eqb_neq in Henv.
    rewrite api_items_del_catch, (api_items_del_body_root _ _ _ Hroot), Henv.
    reflexivity.
  - intros Hroot Henv. apply String.eqb_eq in Henv.
    rewrite api_items_del_catch, (api_items_del_body_root _ _ _ Hroot), Henv.
    repeat split.
    + destruct (im_deleteAll _ _ (db w)) as [[u|e] d]; cbn [fst snd]; [reflexivity|].
      destruct (instanceof_ErrorNotFound e); reflexivity.
    + destruct (im_deleteAll _ _ (db w)) as [[u|e] d]; cbn [fst snd]; [reflexivity|].
      destruct (instanceof_ErrorNotFound e); reflexivity.
    + destruct (im_deleteAll _ _ (db w)) as [[u|e] d]; cbn [fst snd]; [reflexivity|].
      destruct (instanceof_ErrorNotFound e); reflexivity.
    + rewrite H. reflexivity.
    + rewrite H. cbn. apply items_remove_items.
    + rewrite H. cbn. rewrite items_remove_items.
      intros it Hin Hown. apply filter_In in Hin as [_ Hin].
      rewrite Hown, String.eqb_refl in Hin. discriminate.
  - intros Hroot userId.
    rewrite api_items_del_catch, (api_items_del_body_item _ _ _ Hroot). cbv zeta.
    destruct (im_loadByName _ _ _ (db w)) as [[it|]|e].
    + destruct (im_checkIfAllowed _ _ _ it (db w)) as [[]|e].
      * destruct (fst (im_deleteForUser _ _ it (db w))) as [u|e];
          [|destruct (instanceof_ErrorNotFound e)];
          cbn; intros [H|[H|[H|[]]]]; discriminate.
      * destruct (instanceof_ErrorNotFound e); cbn; intros [H|[H|[]]]; discriminate.
    + cbn. intros [H|[]]; discriminate.
    + destruct (instanceof_ErrorNotFound e); cbn; intros [H|[]]; discriminate.
Qed.

(** ** The upload route *)

(** The upload route once the body is parsed: the [try] and its
    [finally]. *)
Lemma api_items_content_put_run (path : SubPath) (ctx : AppContext) (w : World)
    (body : FormBody) (files1 : gmap string Buffer) (p : string) :
  formParse (req ctx) (fs w) = (Ok body, files1) ->
  uploaded_file_path body = Some p ->
  p <> EmptyString ->
  let w1 := {| db := db w; fs := files1 |} in
  let r := api_items_content_put_body
             (im_pathToName (item (models ctx)) (path_id path)) (Some p) ctx w1 in
  api_items_content_put formParse path ctx w
  = (outcome_of r,
     {| db := db (world_of r); fs := delete p (fs (world_of r)) |},
     EvFormParse :: trace_of r ++ [EvSafeRemove p]).
Proof.
  intros Hparse Hfile Hp. cbv zeta.
  unfold api_items_content_put, bind, formParse_. rewrite Hparse, Hfile.
  unfold try_finally, pathToName.
  destruct (api_items_content_put_body _ (Some p) ctx _) as [[r w2] t2].
  assert (truthy (Some p) = true) as -> by (destruct p; [congruence|reflexivity]).
  reflexivity.
Qed.

(** C7. When the parsed multipart body holds a file uploaded under the
    field [file], with a path that is not empty, the upload route removes
    that temporary file on every exit: whether the body of the [try]
    returns or throws (denied check, failed read, failed save),
    [safeRemove] of its path is the last call of the handler and the file
    is gone from the temporary files afterwards. *)
Theorem api_items_content_put_removes_upload (path : SubPath) (ctx : AppContext)
    (w : World) (body : FormBody) (files1 : gmap string Buffer) (f : File) :
  formParse (req ctx) (fs w) = (Ok body, files1) ->
  files body !! "file" = Some f ->
  file_path f <> EmptyString ->
  fs (world_of (api_items_content_put formParse path ctx w)) !! file_path f = None
  /\ last (trace_of (api_items_content_put formParse path ctx w))
     = Some (EvSafeRemove (file_path f))
  /\ outcome_of (api_items_content_put formParse path ctx w)
     = outcome_of (api_items_content_put_body
                     (im_pathToName (item (models ctx)) (path_id path))
                     (Some (file_path f)) ctx {| db := db w; fs := files1 |}).
Proof.
  intros Hparse Hfile Hp.
  assert (Hpath : uploaded_file_path body = Some (file_path f))
    by (unfold uploaded_file_path; now rewrite Hfile).
  rewrite (api_items_content_put_run path ctx w body files1 _ Hparse Hpath Hp).
  cbn [world_of trace_of outcome_of fst snd fs]. repeat split.
  - apply lookup_delete_eq.
  - rewrite app_comm_cons. apply last_snoc.
Qed.

(** The last step of the body of the upload route. *)
Lemma save_step_run (ctx : AppContext) (name : string) (buffer : Buffer)
    (o : ItemSaveOption) (w : World) :
  (let! it := saveFromRawContent (item (models ctx)) (owner ctx) name buffer o in
   ret (toApiOutput (item (models ctx)) it)) w
  = (match fst (im_saveFromRawContent (item (models ctx)) (owner ctx) name buffer o (db w)) with
     | Ok it => Ok (im_toApiOutput (item (models ctx)) it)
     | Throw e => Throw e
     end,
     {| db := snd (im_saveFromRawContent (item (models ctx)) (owner ctx) name buffer o (db w));
        fs := fs w |},
     [EvSaveFromRawContent (owner ctx) name buffer o]).
Proof.
  unfold bind, saveFromRawContent, db_write, ret, toApiOutput.
  destruct (im_saveFromRawContent _ _ _ _ _ (db w)) as [[it|e] d]; reflexivity.
Qed.

(** What the body of the upload route does, by the answers it gets. *)
Lemma api_items_content_put_body_run (name : string) (filePath : option string)
    (ctx : AppContext) (w : World) :
  api_items_content_put_body name filePath ctx w =
  let m := item (models ctx) in
  let reads := if truthy filePath then [EvReadFile (default EmptyString filePath)] else [] in
  let save (buffer : Buffer) (o : ItemSaveOption) (t : list Event) :=
    (match fst (im_saveFromRawContent m (owner ctx) name buffer o (db w)) with
     | Ok it => Ok (im_toApiOutput m it)
     | Throw e => Throw e
     end,
     {| db := snd (im_saveFromRawContent m (owner ctx) name buffer o (db w)); fs := fs w |},
     t ++ [EvSaveFromRawContent (owner ctx) name buffer o]) in
  match (if truthy filePath
         then match fs w !! default EmptyString filePath with
              | Some buffer => Ok buffer
              | None => Throw (ErrorOther "ENOENT")
              end
         else Ok []) with
  | Throw e => (Throw e, w, reads)
  | Ok buffer =>
      if truthy (query ctx !! "share_id") then
        let resource := share_record (default EmptyString (query ctx !! "share_id")) in
        match im_checkIfAllowed m (owner ctx) AclCreate resource (db w) with
        | Throw e =>
            (Throw e, w, reads ++ [EvCheckIfAllowed (owner ctx) AclCreate resource])
        | Ok _ =>
            save buffer {| shareId := query ctx !! "share_id" |}
                 (reads ++ [EvCheckIfAllowed (owner ctx) AclCreate resource])
        end
      else save buffer {| shareId := None |} reads
  end.
Proof.
  cbv zeta. unfold api_items_content_put_body.
  unfold bind at 1.
  destruct (truthy filePath).
  - unfold readFile. destruct (fs w !! default EmptyString filePath) as [buffer|]; [|reflexivity].
    unfold bind at 1.
    destruct (truthy (query ctx !! "share_id")).
    + unfold bind at 1. unfold checkIfAllowed, db_read.
      destruct (im_checkIfAllowed _ _ _ _ (db w)) as [[]|e]; [|reflexivity].
      unfold ret at 1. rewrite save_step_run. reflexivity.
    + unfold ret at 1. rewrite save_step_run. reflexivity.
  - unfold ret at 1. unfold bind at 1.
    destruct (truthy (query ctx !! "share_id")).
    + unfold bind at 1. unfold checkIfAllowed, db_read.
      destruct (im_checkIfAllowed _ _ _ _ (db w)) as [[]|e]; [|reflexivity].
      unfold ret at 1. rewrite save_step_run. reflexivity.
    + unfold ret at 1. rewrite save_step_run. reflexivity.
Qed.

(** The upload route around its body. *)
Lemma api_items_content_put_unfold (path : SubPath) (ctx : AppContext) (w : World) :
  api_items_content_put formParse path ctx w =
  match formParse (req ctx) (fs w) with
  | (Throw e, files1) => (Throw e, {| db := db w; fs := files1 |}, [EvFormParse])
  | (Ok body, files1) =>
      let filePath := uploaded_file_path body in
      let r := api_items_content_put_body
                 (im_pathToName (item (models ctx)) (path_id path)) filePath ctx
                 {| db := db w; fs := files1 |} in
      (outcome_of r,
       {| db := db (world_of r);
          fs := if truthy filePath
                then delete (default EmptyString filePath) (fs (world_of r))
                else fs (world_of r) |},
       EvFormParse :: trace_of r
         ++ (if truthy filePath then [EvSafeRemove (default EmptyString filePath)] else []))
  end.
Proof.
  unfold api_items_content_put, bind, formParse_, pathToName.
  destruct (formParse (req ctx) (fs w)) as [[body|e] files1]; [|reflexivity].
  unfold try_finally. cbv zeta.
  destruct (api_items_content_put_body _ _ ctx _) as [[r [d2 f2]] t2].
  destruct (truthy (uploaded_file_path body)); reflexivity.
Qed.

(** C5. In the delete route, for a path other than the
    root, the only call that changes the store is [deleteForUser] on the
    resolved item, and it comes after [checkIfAllowed(owner, Delete, item)]
    has returned; in the upload route, when the query holds a non-empty
    share_id, the only such call is [saveFromRawContent] with that share id
    and it comes after [checkIfAllowed(owner, Create, {jop_share_id})] has
    returned.  When the check throws, no call changes the store and the
    store is as before. *)
Theorem mutations_follow_checks (path : SubPath) (ctx : AppContext) (w : World) :
  (is_root_path path = false ->
   let r := api_items_del path ctx w in
   (forall t1 e t2,
       trace_of r = t1 ++ e :: t2 -> is_mutation e = true ->
       exists it,
         e = EvDeleteForUser (user_id (owner ctx)) it
         /\ In (EvCheckIfAllowed (owner ctx) AclDelete it) t1
         /\ im_checkIfAllowed (item (models ctx)) (owner ctx) AclDelete it (db w) = Ok tt)
   /\ (forall it err,
         In (EvCheckIfAllowed (owner ctx) AclDelete it) (trace_of r) ->
         im_checkIfAllowed (item (models ctx)) (owner ctx) AclDelete it (db w) = Throw err ->
         world_of r = w /\ forall e, In e (trace_of r) -> is_mutation e = false))
  /\
  (forall s,
      query ctx !! "share_id" = Some s -> s <> EmptyString ->
      let r := api_items_content_put formParse path ctx w in
      let resource := share_record s in
      (forall t1 e t2,
          trace_of r = t1 ++ e :: t2 -> is_mutation e = true ->
          exists buffer,
            e = EvSaveFromRawContent (owner ctx)
                  (im_pathToName (item (models ctx)) (path_id path)) buffer
                  {| shareId := Some s |}
            /\ In (EvCheckIfAllowed (owner ctx) AclCreate resource) t1
            /\ im_checkIfAllowed (item (models ctx)) (owner ctx) AclCreate resource (db w)
               = Ok tt)
      /\ (forall err,
            im_checkIfAllowed (item (models ctx)) (owner ctx) AclCreate resource (db w)
            = Throw err ->
            db (world_of r) = db w
            /\ forall e, In e (trace_of r) -> is_mutation e = false)).
Proof.
  split.
  - intros Hroot. cbv zeta.
    rewrite api_items_del_catch, (api_items_del_body_item _ _ _ Hroot). cbv zeta.
    destruct (im_loadByName _ _ _ (db w)) as [[it|]|e0].
    + destruct (im_checkIfAllowed _ _ _ it (db w)) as [[]|e0] eqn:Hchk.
      * split.
        -- intros t1 e t2 Ht He.
           assert (Ht' : [EvLoadByName (user_id (owner ctx))
                            (im_pathToName (item (models ctx)) (path_id path));
                          EvCheckIfAllowed (owner ctx) AclDelete it;
                          EvDeleteForUser (user_id (owner ctx)) it] = t1 ++ e :: t2).
           { rewrite <- Ht.
             destruct (fst (im_deleteForUser _ _ it (db w))) as [u|e1];
               [|destruct (instanceof_ErrorNotFound e1)]; reflexivity. }
           clear Ht. trace_cases Ht'; try discriminate He.
           exists it. cbn [In]. repeat split; auto 10.
        -- intros it' err Hin Hdeny. exfalso.
           assert (Hin' : In (EvCheckIfAllowed (owner ctx) AclDelete it')
                            [EvLoadByName (user_id (owner ctx))
                               (im_pathToName (item (models ctx)) (path_id path));
                             EvCheckIfAllowed (owner ctx) AclDelete it;
                             EvDeleteForUser (user_id (owner ctx)) it]).
           { destruct (fst (im_deleteForUser _ _ it (db w))) as [u|e1];
               [|destruct (instanceof_ErrorNotFound e1)]; exact Hin. }
           in_cases Hin'; try discriminate Hin'.
           injection Hin' as ->. congruence.
      * split.
        -- intros t1 e t2 Ht He. exfalso.
           destruct (instanceof_ErrorNotFound e0); cbn in Ht;
             trace_cases Ht; discriminate He.
        -- intros it' err _ _.
           destruct (instanceof_ErrorNotFound e0); cbn; (split; [reflexivity|]);
             intros e He; in_cases He; subst e; reflexivity.
    + split.
      * intros t1 e t2 Ht He. exfalso. cbn in Ht. trace_cases Ht; discriminate He.
      * intros it' err Hin _. cbn in Hin. in_cases Hin; discriminate Hin.
    + split.
      * intros t1 e t2 Ht He. exfalso.
        destruct (instanceof_ErrorNotFound e0); cbn in Ht; trace_cases Ht; discriminate He.
      * intros it' err Hin _.
        destruct (instanceof_ErrorNotFound e0); cbn in Hin; in_cases Hin; discriminate Hin.
  - intros s Hs Hne. cbv zeta.
    assert (Htruthy : truthy (Some s) = true) by (destruct s; [congruence|reflexivity]).
    rewrite api_items_content_put_unfold.
    destruct (formParse (req ctx) (fs w)) as [[body|e0] files1].
    2:{ split.
        - intros t1 e t2 Ht He. exfalso. cbn in Ht. trace_cases Ht; discriminate He.
        - intros err _. split; [reflexivity|].
          intros e He. cbn in He. in_cases He; subst e; reflexivity. }
    cbv zeta. rewrite api_items_content_put_body_run. cbv zeta.
    rewrite Hs, Htruthy. cbn [db fs default].
    destruct (truthy (uploaded_file_path body)).
    + destruct (files1 !! default EmptyString (uploaded_file_path body)) as [buffer|].
      * destruct (im_checkIfAllowed _ _ _ _ (db w)) as [[]|e0].
        -- split; [|discriminate].
           intros t1 e t2 Ht He. cbn in Ht. trace_cases Ht; try discriminate He.
           exists buffer. cbn [In]. repeat split; auto 10.
        -- split.
           ++ intros t1 e t2 Ht He. exfalso. cbn in Ht. trace_cases Ht; discriminate He.
           ++ intros err _. split; [reflexivity|].
              intros e He. cbn in He. in_cases He; subst e; reflexivity.
      * split.
        -- intros t1 e t2 Ht He. exfalso. cbn in Ht. trace_cases Ht; discriminate He.
        -- intros err _. split; [reflexivity|].
           intros e He. cbn in He. in_cases He; subst e; reflexivity.
    + destruct (im_checkIfAllowed _ _ _ _ (db w)) as [[]|e0].
      * split; [|discriminate].
        intros t1 e t2 Ht He. cbn in Ht. trace_cases Ht; try discriminate He.
        exists []. cbn [In]. repeat split; auto 10.
      * split.
        -- intros t1 e t2 Ht He. exfalso. cbn in Ht. trace_cases Ht; discriminate He.
        -- intros err _. split; [reflexivity|].
           intros e He. cbn in He. in_cases He; subst e; reflexivity.
Qed.

(** ** Reading content *)

(** What the web content route does: one lookup by the raw identifier. *)
Lemma items_content_get_run (path : SubPath) (ctx : AppContext) (w : World) :
  items_content_get respondWithItemContent path ctx w =
  match im_loadWithContent (item (models ctx)) (path_id path) (db w) with
  | Ok (Some it) =>
      (Ok (respondWithItemContent (response ctx) it (content it)), w,
       [EvLoadWithContent (path_id path)])
  | Ok None => (Throw (ErrorNotFound EmptyString), w, [EvLoadWithContent (path_id path)])
  | Throw e => (Throw e, w, [EvLoadWithContent (path_id path)])
  end.
Proof.
  unfold items_content_get, loadWithContent, bind, db_read.
  destruct (im_loadWithContent _ _ (db w)) as [[it|]|e]; reflexivity.
Qed.

(** The web content route makes no access check and its answer does not
    depend on who asks, whatever the model does. *)
Lemma items_content_get_any_caller (path : SubPath) (ctx1 ctx2 : AppContext) (w : World) :
  models ctx1 = models ctx2 -> response ctx1 = response ctx2 ->
  items_content_get respondWithItemContent path ctx1 w
  = items_content_get respondWithItemContent path ctx2 w
  /\ forall e, In e (trace_of (items_content_get respondWithItemContent path ctx1 w)) ->
               is_check e = false.
Proof.
  intros Hm Hr. rewrite !items_content_get_run, Hm, Hr. split; [reflexivity|].
  intros e He.
  destruct (im_loadWithContent _ _ (db w)) as [[it|]|e0];
    cbn in He; in_cases He; subst e; reflexivity.
Qed.

(** What the API routes for an item and for its content do. *)
Lemma api_items_get_run (path : SubPath) (ctx : AppContext) (w : World) :
  api_items_get path ctx w =
  let m := item (models ctx) in
  let uid := user_id (owner ctx) in
  let name := im_pathToName m (path_id path) in
  match im_loadByName m uid name (db w) with
  | Ok (Some it) => (Ok (im_toApiOutput m it), w, [EvLoadByName uid name])
  | Ok None =>
      (Throw (ErrorNotFound (String.append "Not found: " (path_id path))), w,
       [EvLoadByName uid name])
  | Throw e => (Throw e, w, [EvLoadByName uid name])
  end.
Proof.
  unfold api_items_get. unfold bind at 1. rewrite itemFromPath_run. cbv zeta.
  destruct (im_loadByName _ _ _ (db w)) as [[it|]|e]; reflexivity.
Qed.

Lemma api_items_content_get_run (path : SubPath) (ctx : AppContext) (w : World) :
  api_items_content_get respondWithItemContent path ctx w =
  let m := item (models ctx) in
  let uid := user_id (owner ctx) in
  let name := im_pathToName m (path_id path) in
  match im_loadByName m uid name (db w) with
  | Ok (Some it) =>
      match im_serializedContent m (item_id it) (db w) with
      | Ok bytes =>
          (Ok (respondWithItemContent (response ctx) it bytes), w,
           [EvLoadByName uid name; EvSerializedContent (item_id it)])
      | Throw e =>
          (Throw e, w, [EvLoadByName uid name; EvSerializedContent (item_id it)])
      end
  | Ok None =>
      (Throw (ErrorNotFound (String.append "Not found: " (path_id path))), w,
       [EvLoadByName uid name])
  | Throw e => (Throw e, w, [EvLoadByName uid name])
  end.
Proof.
  unfold api_items_content_get. unfold bind at 1. rewrite itemFromPath_run. cbv zeta.
  destruct (im_loadByName _ _ _ (db w)) as [[it|]|e]; try reflexivity.
  unfold the_item, serializedContent, bind, ret, db_read.
  destruct (im_serializedContent _ _ (db w)); reflexivity.
Qed.

(** ** Tenant isolation *)

(** C1. With the path resolution of the specification, the API item
    routes resolve a path within the namespace of [ctx.owner.id] only: the
    lookup returns an item of the caller with that name or throws
    NotFound, and then the caller has no item of that name; what the
    get, content, delete, upload and children routes return or act on is
    the caller's own, whatever the other tenants have stored, under
    identical names or not. *)
Theorem api_items_tenant_isolation (path : SubPath) (ctx : AppContext) (w : World) :
  item (models ctx) = spec_ItemModel ->
  let B := user_id (owner ctx) in
  (* resolution *)
  (forall found,
      outcome_of (itemFromPath B (item (models ctx)) path true w) = Ok found ->
      exists it, found = Some it /\ In it (items (db w))
                 /\ owner_id it = B /\ item_name it = path_id path)
  /\ (forall e,
        outcome_of (itemFromPath B (item (models ctx)) path true w) = Throw e ->
        e = ErrorNotFound (String.append "Not found: " (path_id path))
        /\ forall it, In it (items (db w)) -> owner_id it = B ->
                      item_name it <> path_id path)
  (* GET /api/items/:id *)
  /\ (forall out,
        outcome_of (api_items_get path ctx w) = Ok out ->
        owner_id out = B /\ item_name out = path_id path)
  (* GET /api/items/:id/content *)
  /\ (List.NoDup (map item_id (items (db w))) ->
      forall resp,
        outcome_of (api_items_content_get respondWithItemContent path ctx w) = Ok resp ->
        exists it, In it (items (db w)) /\ owner_id it = B
                   /\ item_name it = path_id path
                   /\ resp = respondWithItemContent (response ctx) it (content it))
  (* DELETE /api/items/:id *)
  /\ (forall userId it,
        In (EvDeleteForUser userId it) (trace_of (api_items_del path ctx w)) ->
        userId = B /\ owner_id it = B /\ In it (items (db w)))
  (* PUT /api/items/:id/content *)
  /\ (forall out,
        outcome_of (api_items_content_put formParse path ctx w) = Ok out ->
        owner_id out = B /\ item_name out = path_id path)
  (* GET /api/items/:id/children *)
  /\ (forall page,
        outcome_of (api_items_children_get requestPagination path ctx w) = Ok page ->
        forall it, In it (page_items page) ->
                   owner_id it = B /\ In it (items (db w))).
Proof.
  intros Hm. cbv zeta.
  split; [|split; [|split; [|split; [|split; [|split]]]]].
  - intros found. rewrite itemFromPath_run, Hm. cbn.
    destruct (List.find _ (items (db w))) as [it|] eqn:Hf; cbn; [|discriminate].
    intros [= <-]. exists it. apply find_same_owner_name in Hf. tauto.
  - intros e. rewrite itemFromPath_run, Hm. cbn.
    destruct (List.find _ (items (db w))) as [it|] eqn:Hf; cbn; [discriminate|].
    intros [= <-]. split; [reflexivity|]. now apply find_same_owner_name_none.
  - intros out. rewrite api_items_get_run, Hm. cbn.
    destruct (List.find _ (items (db w))) as [it|] eqn:Hf; cbn; [|discriminate].
    intros [= <-]. apply find_same_owner_name in Hf. cbn. tauto.
  - intros Hnd resp. rewrite api_items_content_get_run, Hm. cbn.
    destruct (List.find (same_owner_name _ _) (items (db w))) as [it|] eqn:Hf; cbn;
      [|discriminate].
    apply find_same_owner_name in Hf as (Hin & Ho & Hn).
    unfold spec_serializedContent. rewrite (find_has_id _ _ Hnd Hin). cbn.
    intros [= <-]. exists it. auto.
  - intros userId it.
    destruct (is_root_path path) eqn:Hroot.
    + rewrite api_items_del_catch, (api_items_del_body_root _ _ _ Hroot).
      destruct (String.eqb (env ctx) "dev").
      * destruct (fst (im_deleteAll _ _ (db w))) as [u|e];
          [|destruct (instanceof_ErrorNotFound e)];
          cbn; intros H; in_cases H; discriminate H.
      * cbn. intros [].
    + rewrite api_items_del_catch, (api_items_del_body_item _ _ _ Hroot), Hm. cbn.
      destruct (List.find _ (items (db w))) as [it'|] eqn:Hf; cbn.
      * apply find_same_owner_name in Hf as (Hin & Ho & Hn).
        destruct (spec_checkIfAllowed (owner ctx) AclDelete it' (db w)) as [[]|e].
        -- destruct (fst (spec_deleteForUser _ it' (db w))) as [u|e];
             [|destruct (instanceof_ErrorNotFound e)];
             cbn; intros H; in_cases H; try discriminate H;
             injection H as <- <-; auto.
        -- destruct (instanceof_ErrorNotFound e);
             cbn; intros H; in_cases H; discriminate H.
      * intros H; in_cases H; discriminate H.
  - intros out. rewrite api_items_content_put_unfold.
    destruct (formParse (req ctx) (fs w)) as [[body|e] files1]; [|discriminate].
    cbv zeta. rewrite api_items_content_put_body_run, Hm. cbn.
    assert (Hsave : forall buffer o out',
               match fst (spec_saveFromRawContent (owner ctx)
                            (spec_pathToName (path_id path)) buffer o (db w)) with
               | Ok it => Ok (spec_toApiOutput it)
               | Throw e => Throw e
               end = Ok out' ->
               owner_id out' = user_id (owner ctx) /\ item_name out' = path_id path).
    { intros buffer o out'. unfold spec_saveFromRawContent, spec_pathToName.
      destruct (List.find _ (items (db w))) as [old|] eqn:Hf; cbn; intros [= <-]; cbn.
      - apply find_same_owner_name in Hf. tauto.
      - auto. }
    destruct (truthy (uploaded_file_path body));
      [destruct (files1 !! default EmptyString (uploaded_file_path body))|];
      try discriminate;
      (destruct (truthy (query ctx !! "share_id"));
       [destruct (spec_checkIfAllowed _ _ _ (db w)) as [[]|e0]; try discriminate|]);
      cbn; apply Hsave.
  - intros page. unfold api_items_children_get, children, db_read. rewrite Hm. cbn.
    intros [= <-] it Hin. cbn in Hin.
    apply In_firstn, In_skipn, In_sort_items, filter_In in Hin as [Hin H].
    apply andb_true_iff in H as [Ho _]. apply String.eqb_eq in Ho. auto.
Qed.

(** ** The routes: what they leave alone *)

(** [itemFromPath] makes one lookup, for the given user and the name
  of the path, and leaves the world as it is.  With [mustExists] it never
  returns null: a missing item is a NotFound error that names the path.
  Without it, the answer of the lookup is returned as it is, null
  included. *)
Lemma itemFromPath_mustExists (userId : Uuid) (m : ItemModel) (path : SubPath) (w : World) :
let found := im_loadByName m userId (im_pathToName m (path_id path)) (db w) in
itemFromPath userId m path false w
= (found, w, [EvLoadByName userId (im_pathToName m (path_id path))])
/\ outcome_of (itemFromPath userId m path true w)
   = match found with
     | Ok None => Throw (ErrorNotFound (String.append "Not found: " (path_id path)))
     | other => other
     end
/\ world_of (itemFromPath userId m path true w) = w
/\ trace_of (itemFromPath userId m path true w)
   = [EvLoadByName userId (im_pathToName m (path_id path))].
Proof.
cbv zeta. split.
- unfold itemFromPath, loadByName, pathToName, bind, db_read. cbn [andb].
  destruct (im_loadByName m userId _ (db w)) as [[it|]|e]; reflexivity.
- rewrite itemFromPath_run. cbv zeta.
  destruct (im_loadByName m userId _ (db w)) as [[it|]|e]; repeat split.
Qed.

(** X14. However an upload request ends, it calls [saveFromRawContent] at
  most once, for the owner and the name of the path, and the store changes
  in no other way: without that call the store is as before. *)
Theorem api_items_content_put_one_save (path : SubPath) (ctx : AppContext) (w : World) :
let r := api_items_content_put formParse path ctx w in
let name := im_pathToName (item (models ctx)) (path_id path) in
(db (world_of r) = db w /\ forall e, In e (trace_of r) -> is_mutation e = false)
\/ exists t1 buffer o t2,
     trace_of r = t1 ++ EvSaveFromRawContent (owner ctx) name buffer o :: t2
     /\ (forall e, In e (t1 ++ t2) -> is_mutation e = false)
     /\ db (world_of r)
        = snd (im_saveFromRawContent (item (models ctx)) (owner ctx) name buffer o (db w)).
Proof.
cbv zeta. rewrite api_items_content_put_unfold.
destruct (formParse (req ctx) (fs w)) as [[body|e0] files1].
2:{ left. split; [reflexivity|]. intros e He. cbn in He. in_cases He; subst e; reflexivity. }
cbv zeta. rewrite api_items_content_put_body_run. cbv zeta. cbn [db fs].
assert (Hno : forall (t : list Event),
           (forall e, In e t -> is_mutation e = false) ->
           forall e, In e (EvFormParse :: t ++
                           (if truthy (uploaded_file_path body)
                            then [EvSafeRemove (default EmptyString (uploaded_file_path body))]
                            else [])) -> is_mutation e = false).
{ intros t Ht e [<-|He]; [reflexivity|]. apply in_app_iff in He as [He|He]; [auto|].
  destruct (truthy (uploaded_file_path body)); cbn in He; in_cases He; subst e; reflexivity. }
assert (Hsave : forall (reads : list Event) buffer o,
           (forall e, In e reads -> is_mutation e = false) ->
           exists t1 t2,
             EvFormParse ::
               (reads ++ [EvSaveFromRawContent (owner ctx)
                            (im_pathToName (item (models ctx)) (path_id path)) buffer o])
               ++ (if truthy (uploaded_file_path body)
                   then [EvSafeRemove (default EmptyString (uploaded_file_path body))]
                   else [])
             = t1 ++ EvSaveFromRawContent (owner ctx)
                       (im_pathToName (item (models ctx)) (path_id path)) buffer o :: t2
             /\ forall e, In e (t1 ++ t2) -> is_mutation e = false).
{ intros reads buffer o Hr. exists (EvFormParse :: reads). eexists.
  split; [rewrite <- app_assoc; reflexivity|].
  intros e He. cbn [app] in He. destruct He as [<-|He]; [reflexivity|].
  apply in_app_iff in He as [He|He]; [auto|].
  destruct (truthy (uploaded_file_path body)); cbn in He; in_cases He; subst e; reflexivity. }
set (reads := if truthy (uploaded_file_path body)
              then [EvReadFile (default EmptyString (uploaded_file_path body))] else []).
assert (Hreads : forall e, In e reads -> is_mutation e = false).
{ intros e He. subst reads. destruct (truthy (uploaded_file_path body));
    cbn in He; in_cases He; subst e; reflexivity. }
assert (Hreads' : forall c, is_mutation c = false ->
                            forall e, In e (reads ++ [c]) -> is_mutation e = false).
{ intros c Hc e He. apply in_app_iff in He as [He|[<-|[]]]; auto. }
destruct (if truthy (uploaded_file_path body)
          then match files1 !! default EmptyString (uploaded_file_path body) with
               | Some buffer => Ok buffer
               | None => Throw (ErrorOther "ENOENT")
               end
          else Ok []) as [buffer|e0].
- destruct (truthy (query ctx !! "share_id")).
  + destruct (im_checkIfAllowed _ _ _ _ (db w)) as [[]|e0].
    * right.
      destruct (Hsave (reads ++ [EvCheckIfAllowed (owner ctx) AclCreate
                                   (share_record (default EmptyString (query ctx !! "share_id")))])
                      buffer {| shareId := query ctx !! "share_id" |}
                      (Hreads' (EvCheckIfAllowed (owner ctx) AclCreate
                                  (share_record (default EmptyString (query ctx !! "share_id"))))
                               eq_refl)) as (t1 & t2 & Ht & Hm).
      exists t1, buffer, {| shareId := query ctx !! "share_id" |}, t2.
      cbn [trace_of world_of snd fst db]. auto.
    * left. split; [reflexivity|]. cbn [trace_of snd]. apply Hno.
      now apply (Hreads' (EvCheckIfAllowed (owner ctx) AclCreate
                            (share_record (default EmptyString (query ctx !! "share_id"))))).
  + right.
    destruct (Hsave reads buffer {| shareId := None |} Hreads) as (t1 & t2 & Ht & Hm).
    exists t1, buffer, {| shareId := None |}, t2.
    cbn [trace_of world_of snd fst db]. auto.
- left. split; [reflexivity|]. cbn [trace_of snd]. now apply Hno.
Qed.

(** X15. An upload request without an uploaded file (no [file] part, or
  one with an empty path) reads no file and removes none: it saves the
  empty buffer under the name of the path, and the temporary files are as
  the parser left them. *)
Theorem api_items_content_put_without_file (path : SubPath) (ctx : AppContext) (w : World)
  (body : FormBody) (files1 : gmap string Buffer) :
formParse (req ctx) (fs w) = (Ok body, files1) ->
truthy (uploaded_file_path body) = false ->
let r := api_items_content_put formParse path ctx w in
fs (world_of r) = files1
/\ (forall p, ~ In (EvReadFile p) (trace_of r) /\ ~ In (EvSafeRemove p) (trace_of r))
/\ (forall user name buffer o,
       In (EvSaveFromRawContent user name buffer o) (trace_of r) ->
       buffer = [] /\ user = owner ctx
       /\ name = im_pathToName (item (models ctx)) (path_id path)).
Proof.
intros Hparse Hfile. cbv zeta.
rewrite api_items_content_put_unfold, Hparse. cbv zeta.
rewrite api_items_content_put_body_run. cbv zeta. rewrite Hfile. cbn [db fs].
destruct (truthy (query ctx !! "share_id"));
  [destruct (im_checkIfAllowed _ _ _ _ (db w)) as [[]|e0]|];
  (split; [reflexivity|]); (split; [intros p; split; intros H|intros user name buffer o H]);
  cbn in H; in_cases H; try discriminate H; injection H as <- <- <- <-; auto.
Qed.

End RouteFacts.

(** ** The item list form *)

Section WebRouteFacts.
Variable formParse :
Request -> gmap string Buffer -> Outcome FormBody * gmap string Buffer.
Variable redirect : AppContext -> string -> Response.
Variable itemUrl : string.

(** X16. The form of the item list deletes all the items of the caller
  when the field [delete_all_button] is set, in every environment (the
  route does not look at [ctx.env]), and then redirects to the item list;
  without the field it throws 'Invalid form button' and calls no model.
  It removes no file that the parser has left. *)
Theorem items_post_spec (path : SubPath) (ctx : AppContext) (w : World)
  (body : FormBody) (files1 : gmap string Buffer) :
formParse (req ctx) (fs w) = (Ok body, files1) ->
let r := items_post formParse redirect itemUrl path ctx w in
let wiped := im_deleteAll (item (models ctx)) (user_id (owner ctx)) (db w) in
fs (world_of r) = files1
/\ (truthy (fields body !! "delete_all_button") = true ->
    trace_of r = [EvFormParse; EvDeleteAll (user_id (owner ctx))]
    /\ db (world_of r) = snd wiped
    /\ outcome_of r
       = match fst wiped with
         | Ok _ => Ok (redirect ctx itemUrl)
         | Throw e => Throw e
         end)
/\ (truthy (fields body !! "delete_all_button") = false ->
    r = (Throw (ErrorOther "Invalid form button"),
         {| db := db w; fs := files1 |}, [EvFormParse])).
Proof.
intros Hparse. cbv zeta.
unfold items_post, bind, formParse_. rewrite Hparse.
destruct (truthy (fields body !! "delete_all_button")).
- unfold deleteAll, db_write. cbn [db fs].
  destruct (im_deleteAll _ _ (db w)) as [[u|e] d]; cbn; repeat split; discriminate.
- cbn. repeat split; discriminate.
Qed.
End WebRouteFacts.

(** ** create_or_replace, called twice *)




Lemma find_app_none {A} (f : A -> bool) (l : list A) (x : A) :
  List.find f l = None -> f x = true -> List.find f (l ++ [x]) = Some x.
Proof.
  intros Hl Hx. induction l as [|y l IH]; cbn [app List.find] in *.
  - now rewrite Hx.
  - destruct (f y); [discriminate|auto].
Qed.










(** ** The stores of the models are well formed *)








(** ** Compaction *)



(** ** The scenario *)

Lemma wf_empty_db : wf_db empty_db.
Proof. constructor; cbn; [constructor|constructor|intros it k []]. Qed.

Example alice_world_items :
  items (db alice_world)
  = [ {| item_id := "item-0"; item_name := "root:/note.md:"; owner_id := "alice";
         content_size := 5; mime_type := EmptyString; updated_time := 1; created_time := 1;
         jop_share_id := EmptyString; content := hello |} ].
Proof. vm_compute. reflexivity. Qed.

Example two_tenant_world_items :
  map (fun it => (item_id it, owner_id it, item_name it)) (items (db two_tenant_world))
  = [ ("item-0", "alice", "root:/note.md:"); ("item-2", "bob", "root:/note.md:") ].
Proof. vm_compute. reflexivity. Qed.

(** The end-to-end scenario of the specification: upload, read, upload
    again, delete. *)
Example end_to_end :
  let ctx := spec_ctx alice "prod" ∅ in
  let w1 := alice_world in
  let r2 := api_items_content_get spec_respondWithItemContent note_path (ctx no_request) w1 in
  let w3 := world_of (api_items_content_put spec_formParse note_path
                        (ctx (upload hello_bob)) w1) in
  let r4 := api_items_content_get spec_respondWithItemContent note_path (ctx no_request) w3 in
  let w5 := world_of (api_items_del note_path (ctx no_request) w3) in
  let r6 := api_items_get note_path (ctx no_request) w5 in
  option_map response_body (match outcome_of r2 with Ok r => Some r | _ => None end) = Some hello
  /\ option_map response_body (match outcome_of r4 with Ok r => Some r | _ => None end)
     = Some hello_bob
  /\ map updated_time (items (db w1)) = [1] /\ map updated_time (items (db w3)) = [2]
  /\ outcome_of r6 = Throw (ErrorNotFound "Not found: root:/note.md:")
  /\ map change_type (changes (db w5)) = [ChangeCreate; ChangeUpdate; ChangeDelete].
Proof. vm_compute. repeat split. Qed.

(** ** The theorems at work *)

Lemma api_items_tenant_isolation_witness :
  let ctx := spec_ctx bob "prod" ∅ no_request in
  item (models ctx) = spec_ItemModel
  /\ List.NoDup (map item_id (items (db two_tenant_world)))
  /\ (exists it,
        outcome_of (itemFromPath "bob" spec_ItemModel note_path true two_tenant_world)
        = Ok (Some it)
        /\ owner_id it = "bob" /\ item_name it = "root:/note.md:")
  /\ (exists it,
        In it (items (db two_tenant_world)) /\ owner_id it = "bob"
        /\ outcome_of (api_items_content_get spec_respondWithItemContent note_path ctx
                         two_tenant_world)
           = Ok (spec_respondWithItemContent (response ctx) it (content it))).
Proof.
  cbv zeta.
  pose proof (api_items_tenant_isolation spec_formParse
                (fun _ => {| limit := 10; order_field := "name"; order_dir := ASC; page := 1 |})
                spec_respondWithItemContent note_path
                (spec_ctx bob "prod" ∅ no_request) two_tenant_world eq_refl) as H.
  cbv zeta in H. destruct H as (Hres & _ & _ & Hcontent & _).
  assert (Hnd : List.NoDup (map item_id (items (db two_tenant_world)))).
  { vm_compute. repeat constructor; cbn; intuition discriminate. }
  split; [reflexivity|]. split; [exact Hnd|]. split.
  - destruct (outcome_of (itemFromPath "bob" spec_ItemModel note_path true two_tenant_world))
      as [found|e] eqn:E; [|vm_compute in E; discriminate E].
    destruct (Hres found E) as (it & -> & _ & Ho & Hn). exists it. auto.
  - destruct (outcome_of (api_items_content_get spec_respondWithItemContent note_path
                            (spec_ctx bob "prod" ∅ no_request) two_tenant_world))
      as [resp|e] eqn:E; [|vm_compute in E; discriminate E].
    destruct (Hcontent Hnd resp eq_refl) as (it & Hin & Ho & _ & ->). exists it. auto.
Defined.

Lemma api_items_del_root_witness :
  let root := {| path_id := "root" |} in
  (is_root_path root = true /\ "prod" <> "dev"
   /\ api_items_del root (spec_ctx alice "prod" ∅ no_request) alice_world
      = (Throw (ErrorMethodNotAllowed "Deleting the root is not allowed"), alice_world, []))
  /\ ("dev" = "dev"
      /\ outcome_of (api_items_del root (spec_ctx bob "dev" ∅ no_request) two_tenant_world)
         = Ok tt
      /\ map owner_id
           (items (db (world_of (api_items_del root (spec_ctx bob "dev" ∅ no_request)
                                   two_tenant_world))))
         = ["alice"])
  /\ (is_root_path note_path = false
      /\ ~ In (EvDeleteAll "alice")
             (trace_of (api_items_del note_path (spec_ctx alice "dev" ∅ no_request)
                          alice_world))).
Proof.
  cbv zeta. split; [|split].
  - split; [reflexivity|]. split; [discriminate|].
    apply (api_items_del_root {| path_id := "root" |}
             (spec_ctx alice "prod" ∅ no_request) alice_world);
      [reflexivity|discriminate].
  - split; [reflexivity|].
    destruct (api_items_del_root {| path_id := "root" |}
                (spec_ctx bob "dev" ∅ no_request) two_tenant_world) as (_ & Hdev & _).
    destruct (Hdev eq_refl eq_refl) as (_ & _ & _ & Hspec).
    destruct (Hspec eq_refl) as (Hok & Hitems & _).
    split; [exact Hok|]. rewrite Hitems. vm_compute. reflexivity.
  - split; [reflexivity|].
    apply (api_items_del_root note_path (spec_ctx alice "dev" ∅ no_request) alice_world).
    reflexivity.
Defined.


(** The two calls on the empty store: the ledger takes a create and an
    update record for the item, and a compaction whose horizon has passed
    both leaves the update. *)
Example two_calls_then_compaction :
  let save := spec_saveFromRawContent alice "root:/note.md:" hello {| shareId := None |} in
  let d2 := snd (save (snd (save empty_db))) in
  map item_id (items d2) = ["item-0"]
  /\ map (fun c => (change_id c, change_item_id c, change_type c)) (changes d2)
     = [(1, "item-0", ChangeCreate); (2, "item-0", ChangeUpdate)]
  /\ map (fun c => (change_id c, change_item_id c, change_type c))
       (surviving_changes 3 "item-0" d2)
     = [(2, "item-0", ChangeUpdate)].
Proof. vm_compute. repeat split. Qed.

Lemma mutations_follow_checks_witness :
  let shared := {[ "share_id" := "share-1" ]} : gmap string string in
  let ctx := spec_ctx bob "prod" shared (upload hello_bob) in
  (is_root_path note_path = false
   /\ forall it,
        In (EvDeleteForUser "alice" it)
           (trace_of (api_items_del note_path (spec_ctx alice "prod" ∅ no_request) alice_world)) ->
        In (EvCheckIfAllowed alice AclDelete it)
           (trace_of (api_items_del note_path (spec_ctx alice "prod" ∅ no_request) alice_world)))
  /\ (shared !! "share_id" = Some "share-1" /\ "share-1" <> EmptyString
      /\ spec_checkIfAllowed bob AclCreate (share_record "share-1") (db alice_world)
         = Throw (ErrorForbidden "not allowed")
      /\ db (world_of (api_items_content_put spec_formParse note_path ctx alice_world))
         = db alice_world).
Proof.
  cbv zeta. split.
  - split; [reflexivity|]. intros it Hin.
    destruct (mutations_follow_checks spec_formParse note_path
                (spec_ctx alice "prod" ∅ no_request) alice_world) as [Hdel _].
    destruct (Hdel eq_refl) as [Hbefore _].
    apply in_split in Hin as (t1 & t2 & Ht).
    destruct (Hbefore t1 _ t2 Ht eq_refl) as (it' & [= <-] & Hchk & _).
    rewrite Ht. apply in_or_app. now left.
  - split; [reflexivity|]. split; [discriminate|]. split; [reflexivity|].
    destruct (mutations_follow_checks spec_formParse note_path
                (spec_ctx bob "prod" {[ "share_id" := "share-1" ]} (upload hello_bob))
                alice_world) as [_ Hput].
    destruct (Hput "share-1" eq_refl ltac:(discriminate)) as [_ Hdeny].
    apply (Hdeny (ErrorForbidden "not allowed")). reflexivity.
Defined.

(** An upload without share_id writes the store and no call of
    [checkIfAllowed] comes before it: not every call that changes the store
    follows a check. *)
Lemma upload_without_share_id_makes_no_check :
  let r := api_items_content_put spec_formParse note_path
             (spec_ctx alice "prod" ∅ (upload hello)) empty_world in
  trace_of r
  = [ EvFormParse; EvReadFile "/tmp/upload_file";
      EvSaveFromRawContent alice "root:/note.md:" hello {| shareId := None |};
      EvSafeRemove "/tmp/upload_file" ]
  /\ items (db (world_of r)) <> items (db empty_world)
  /\ ~ every_mutation_checked (trace_of r).
Proof.
  cbv zeta.
  assert (Ht : trace_of (api_items_content_put spec_formParse note_path
                           (spec_ctx alice "prod" ∅ (upload hello)) empty_world)
               = [ EvFormParse; EvReadFile "/tmp/upload_file";
                   EvSaveFromRawContent alice "root:/note.md:" hello {| shareId := None |};
                   EvSafeRemove "/tmp/upload_file" ])
    by (vm_compute; reflexivity).
  split; [exact Ht|]. split; [vm_compute; discriminate|].
  rewrite Ht. intros H.
  destruct (H [EvFormParse; EvReadFile "/tmp/upload_file"] _ [EvSafeRemove "/tmp/upload_file"]
              eq_refl eq_refl) as (c & Hin & Hc).
  in_cases Hin; subst c; discriminate Hc.
Qed.

Lemma api_items_del_missing_item_witness :
  let ctx := spec_ctx bob "prod" ∅ no_request in
  is_root_path note_path = false
  /\ im_loadByName (item (models ctx)) (user_id (owner ctx))
       (im_pathToName (item (models ctx)) (path_id note_path)) (db alice_world) = Ok None
  /\ api_items_del note_path ctx alice_world
     = (Ok tt, alice_world, [EvLoadByName "bob" "root:/note.md:"]).
Proof.
  cbv zeta. split; [reflexivity|]. split; [reflexivity|].
  apply (api_items_del_missing_item note_path (spec_ctx bob "prod" ∅ no_request) alice_world);
    reflexivity.
Defined.

Lemma api_items_content_put_removes_upload_witness :
  let ctx := spec_ctx alice "prod" ∅ (upload hello) in
  let f := {| file_path := "/tmp/upload_file" |} in
  exists body files1,
    spec_formParse (req ctx) (fs empty_world) = (Ok body, files1)
    /\ files body !! "file" = Some f
    /\ files1 !! file_path f = Some hello
    /\ file_path f <> EmptyString
    /\ fs (world_of (api_items_content_put spec_formParse note_path ctx empty_world))
         !! file_path f = None.
Proof.
  cbv zeta. eexists _, _.
  split; [unfold spec_formParse; reflexivity|].
  split; [vm_compute; reflexivity|]. split; [vm_compute; reflexivity|].
  split; [discriminate|].
  eapply (api_items_content_put_removes_upload spec_formParse note_path
            (spec_ctx alice "prod" ∅ (upload hello)) empty_world).
  - unfold spec_formParse. reflexivity.
  - vm_compute. reflexivity.
  - discriminate.
Defined.

(** C7, as the claim states it, fails.  Alice's request uploads under the
    fields "file" and "attachment"; the parser leaves a temporary file for
    each; the route saves the bytes of "file" and removes its temporary
    file; the temporary file of "attachment" is still there when the request
    is over. *)
Lemma second_upload_stays_behind :
  let ctx := spec_ctx alice "prod" ∅ (upload_two hello hello_bob) in
  let r := api_items_content_put spec_formParse note_path ctx empty_world in
  (exists body files1,
      spec_formParse (req ctx) (fs empty_world) = (Ok body, files1)
      /\ files body !! "file" = Some {| file_path := "/tmp/upload_file" |}
      /\ files body !! "attachment" = Some {| file_path := "/tmp/upload_attachment" |}
      /\ files1 !! "/tmp/upload_attachment" = Some hello_bob)
  /\ (exists it, outcome_of r = Ok it)
  /\ fs empty_world !! "/tmp/upload_attachment" = None
  /\ fs (world_of r) !! "/tmp/upload_file" = None
  /\ fs (world_of r) !! "/tmp/upload_attachment" = Some hello_bob.
Proof.
  cbv zeta. split.
  - eexists _, _. split; [unfold spec_formParse; reflexivity|].
    repeat split; vm_compute; reflexivity.
  - split; [eexists; vm_compute; reflexivity|]. repeat split; vm_compute; reflexivity.
Qed.

(** C2. Content of an item that the caller does not own should not leave
    the server without an access check; the web content route does not
    keep to this.  Bob, who owns nothing, asks the
    web content route for the identifier of alice's note: the route answers
    with the bytes of the note after one lookup by identifier and no call of
    [checkIfAllowed], although the evaluator denies bob the read and the API
    content route finds nothing under bob's name. *)
Theorem items_content_get_serves_other_tenant :
  let ctx := spec_ctx bob "prod" ∅ no_request in
  let note :=
    {| item_id := "item-0"; item_name := "root:/note.md:"; owner_id := "alice";
       content_size := 5; mime_type := EmptyString; updated_time := 1; created_time := 1;
       jop_share_id := EmptyString; content := hello |} in
  items (db alice_world) = [note]
  /\ items_content_get spec_respondWithItemContent {| path_id := "item-0" |} ctx alice_world
     = (Ok {| response_body := hello; response_type := "application/octet-stream" |},
        alice_world, [EvLoadWithContent "item-0"])
  /\ spec_checkIfAllowed bob AclRead note (db alice_world)
     = Throw (ErrorForbidden "not allowed")
  /\ api_items_content_get spec_respondWithItemContent note_path ctx alice_world
     = (Throw (ErrorNotFound "Not found: root:/note.md:"), alice_world,
        [EvLoadByName "bob" "root:/note.md:"]).
Proof. vm_compute. repeat split. Qed.

Lemma api_items_content_put_without_file_witness :
  let ctx := spec_ctx alice "prod" ∅ no_request in
  exists body files1,
    spec_formParse (req ctx) (fs empty_world) = (Ok body, files1)
    /\ truthy (uploaded_file_path body) = false
    /\ forall user name buffer o,
         In (EvSaveFromRawContent user name buffer o)
            (trace_of (api_items_content_put spec_formParse note_path ctx empty_world)) ->
         buffer = [].
Proof.
  cbv zeta. eexists _, _.
  split; [unfold spec_formParse; reflexivity|]. split; [vm_compute; reflexivity|].
  intros user name buffer o Hin.
  eapply (api_items_content_put_without_file spec_formParse note_path
            (spec_ctx alice "prod" ∅ no_request) empty_world).
  - unfold spec_formParse. reflexivity.
  - vm_compute. reflexivity.
  - exact Hin.
Defined.

Lemma items_post_spec_witness :
  let redirect (ctx : AppContext) (url : string) : Response :=
    {| response_body := []; response_type := url |} in
  let form := {| req_fields := {[ "delete_all_button" := "Delete all" ]};
                 req_uploads := ∅ |} in
  let ctx := spec_ctx alice "prod" ∅ form in
  exists body files1,
    spec_formParse (req ctx) (fs two_tenant_world) = (Ok body, files1)
    /\ truthy (fields body !! "delete_all_button") = true
    /\ trace_of (items_post spec_formParse redirect "/items" note_path ctx two_tenant_world)
       = [EvFormParse; EvDeleteAll "alice"].
Proof.
  cbv zeta. eexists _, _.
  split; [unfold spec_formParse; reflexivity|]. split; [vm_compute; reflexivity|].
  eapply (items_post_spec spec_formParse
            (fun _ url => {| response_body := []; response_type := url |}) "/items"
            note_path
            (spec_ctx alice "prod" ∅
               {| req_fields := {[ "delete_all_button" := "Delete all" ]};
                  req_uploads := ∅ |})
            two_tenant_world).
  - unfold spec_formParse. reflexivity.
  - vm_compute. reflexivity.
Defined.
